(** * CSV to SQL Server migration pipeline (data_migration_into_db/migrate_data.py)

    A shallow embedding of the comprehensive migration script: the frame
    operations it performs on the loaded table, the validator, the cleaner
    with its date-range clamp, the chunked writer, the verifier, the
    reporter and the driver [main], followed by the properties of the
    pipeline.

    What belongs to the libraries the script calls (pandas' parsers, the
    text form of a number, the destination database) is kept abstract in
    the records [Pandas] and [Destination]; one concrete instance of each is
    given for evaluating the pipeline on examples. *)

From Stdlib Require Import List String Ascii ZArith QArith Bool Arith Lia.
Import ListNotations.
Open Scope string_scope.
Open Scope nat_scope.
Open Scope list_scope.

(* ===================================================================== *)
(** ** Values held by a frame *)
(* ===================================================================== *)

(** A parsed timestamp: a calendar date and the time elapsed since midnight
    (in nanoseconds).  Timestamps compare lexicographically. *)
Record Timestamp := mkTs {
  ts_year : Z;
  ts_month : Z;
  ts_day : Z;
  ts_time : Z
}.

Definition ts_compare (a b : Timestamp) : comparison :=
  match Z.compare (ts_year a) (ts_year b) with
  | Eq =>
      match Z.compare (ts_month a) (ts_month b) with
      | Eq =>
          match Z.compare (ts_day a) (ts_day b) with
          | Eq => Z.compare (ts_time a) (ts_time b)
          | c => c
          end
      | c => c
      end
  | c => c
  end.

Definition ts_ltb (a b : Timestamp) : bool :=
  match ts_compare a b with Lt => true | _ => false end.

Definition ts_gtb (a b : Timestamp) : bool :=
  match ts_compare a b with Gt => true | _ => false end.

(** The calendar date of a timestamp, as a triple, and its order. *)
Definition date_of (t : Timestamp) : Z * Z * Z := (ts_year t, ts_month t, ts_day t).

Definition date_compare (a b : Z * Z * Z) : comparison :=
  let '(ya, ma, da) := a in
  let '(yb, mb, db) := b in
  match Z.compare ya yb with
  | Eq => match Z.compare ma mb with Eq => Z.compare da db | c => c end
  | c => c
  end.

Definition date_before (a b : Z * Z * Z) : Prop := date_compare a b = Lt.
Definition date_after (a b : Z * Z * Z) : Prop := date_compare a b = Gt.

(** One cell.  [NaN] stands for every null of pandas (NaN, NaT, None). *)
Inductive cell :=
| NaN
| Str (s : string)
| Num (q : Q)
| Ts (t : Timestamp).

Definition isna (c : cell) : bool :=
  match c with NaN => true | _ => false end.

Definition notna (c : cell) : bool := negb (isna c).

Inductive dtype := object_ | float64 | datetime64.

(** A DataFrame: the column labels with their dtype, and the rows in
    order.  Data is positional, as in pandas: a label names a position,
    and labels may repeat. *)
Record DataFrame := mkFrame {
  columns : list (string * dtype);
  rows : list (list cell)
}.

Definition labels (df : DataFrame) : list string := map fst (columns df).

(** [len(df)] *)
Definition len (df : DataFrame) : nat := List.length (rows df).

(** [col in df.columns] *)
Definition has_column (col : string) (df : DataFrame) : bool :=
  existsb (String.eqb col) (labels df).

Fixpoint positions_from (j : nat) (col : string) (ls : list string) : list nat :=
  match ls with
  | [] => []
  | l :: ls' =>
      if String.eqb col l then j :: positions_from (S j) col ls'
      else positions_from (S j) col ls'
  end.

(** The positions a label names. *)
Definition positions (col : string) (df : DataFrame) : list nat :=
  positions_from 0 col (labels df).

(** Reading a position of a row; a row shorter than the header reads as
    null there (read_csv pads short lines the same way). *)
Definition cell_at (j : nat) (r : list cell) : cell := nth j r NaN.

Fixpoint put (j : nat) (v : cell) (r : list cell) : list cell :=
  match j, r with
  | O, [] => [v]
  | O, _ :: t => v :: t
  | S j', [] => NaN :: put j' v []
  | S j', x :: t => x :: put j' v t
  end.

(** The values of the column at position [j]. *)
Definition series (j : nat) (df : DataFrame) : list cell :=
  map (cell_at j) (rows df).

Fixpoint set_dtype (j : nat) (d : dtype) (cols : list (string * dtype))
  : list (string * dtype) :=
  match j, cols with
  | _, [] => []
  | O, (l, _) :: t => (l, d) :: t
  | S j', c :: t => c :: set_dtype j' d t
  end.

Definition dtype_at (j : nat) (df : DataFrame) : dtype :=
  snd (nth j (columns df) (EmptyString, object_)).

Fixpoint assign_rows (j : nat) (vals : list cell) (rs : list (list cell))
  : list (list cell) :=
  match rs with
  | [] => []
  | r :: rs' => put j (hd NaN vals) r :: assign_rows j (tl vals) rs'
  end.

(** [df[col] = vals], for a column that exists at position [j]; the column
    takes the dtype of the new values. *)
Definition assign (j : nat) (d : dtype) (vals : list cell) (df : DataFrame)
  : DataFrame :=
  {| columns := set_dtype j d (columns df);
     rows := assign_rows j vals (rows df) |}.

Fixpoint assign_where_rows (mask : list bool) (j : nat) (f : cell -> cell)
    (rs : list (list cell)) : list (list cell) :=
  match rs with
  | [] => []
  | r :: rs' =>
      (if hd false mask then put j (f (cell_at j r)) r else r)
        :: assign_where_rows (tl mask) j f rs'
  end.

(** [df.loc[mask, col] = f(df.loc[mask, col])] *)
Definition assign_where (mask : list bool) (j : nat) (f : cell -> cell)
    (df : DataFrame) : DataFrame :=
  {| columns := columns df;
     rows := assign_where_rows mask j f (rows df) |}.

(** [mask.any()] and [mask.sum()] *)
Definition any (mask : list bool) : bool := existsb (fun b => b) mask.
Definition sum (mask : list bool) : nat := count_occ bool_dec mask true.

(** [df.iloc[a:b]] for [0 <= a], [b <= len(df)]. *)
Definition iloc (a b : nat) (df : DataFrame) : DataFrame :=
  {| columns := columns df;
     rows := firstn (b - a) (skipn a (rows df)) |}.

(* ===================================================================== *)
(** ** config.py *)
(* ===================================================================== *)

Module Config.

Inductive if_exists_mode := replace | append | fail.

Record migration_config := {
  table_name : string;
  schema : string;
  if_exists : if_exists_mode;
  chunksize : nat
}.

(** [MIGRATION_CONFIG] as shipped. *)
Definition MIGRATION_CONFIG : migration_config :=
  {| table_name := "Companies";
     schema := "dbo";
     if_exists := replace;
     chunksize := 1000 |}.

(** [COLUMN_MAPPING] *)
Definition COLUMN_MAPPING : list (string * string) :=
  [ ("name", "Name");
    ("homepage_url", "HomepageURL");
    ("category_list", "CategoryList");
    ("funding_total_usd", "FundingTotalUSD");
    ("status", "Status");
    ("country_code", "CountryCode");
    ("state_code", "StateCode");
    ("city", "City");
    ("funding_rounds", "FundingRounds");
    ("founded_at", "FoundedAt");
    ("first_funding_at", "FirstFundingAt");
    ("last_funding_at", "LastFundingAt") ].

(** [VALIDATION_RULES] *)
Definition max_name_length : nat := 255.
Definition max_url_length : nat := 500.
Definition max_category_length : nat := 500.
Definition max_status_length : nat := 50.
Definition max_country_code_length : nat := 10.
Definition max_state_code_length : nat := 50.
Definition max_city_length : nat := 100.
Definition min_funding_amount : Q := 0.
(** The literal [999999999999999.99] is not a double: Python reads it as
    the nearest one, which is 10^15 (the doubles around it are 0.125
    apart), and that is the number the amounts are compared with. *)
Definition max_funding_amount : Q := 1000000000000000 # 1.

(** The length limit the rules give for each destination text column. *)
Definition max_length (col : string) : option nat :=
  if String.eqb col "Name" then Some max_name_length
  else if String.eqb col "HomepageURL" then Some max_url_length
  else if String.eqb col "CategoryList" then Some max_category_length
  else if String.eqb col "Status" then Some max_status_length
  else if String.eqb col "CountryCode" then Some max_country_code_length
  else if String.eqb col "StateCode" then Some max_state_code_length
  else if String.eqb col "City" then Some max_city_length
  else None.

End Config.

(* ===================================================================== *)
(** ** Exceptions and the logger *)
(* ===================================================================== *)

Inductive exn :=
| KeyError (key : string)
| AttributeError
| TypeError
| ValueError
| ZeroDivisionError
| OSError.

Inductive outcome (A : Type) :=
| Ok (a : A)
| Raised (e : exn).
Arguments Ok {A} a.
Arguments Raised {A} e.

Inductive level := INFO | WARNING | ERROR.

(** The messages of the script, with the numbers they report. *)
Inductive message :=
| ValidationStarted
| RemovedMissingNames (n : nat)
| LongNames (n limit : nat)
| InvalidFunding (n : nat)
| ValidationCompleted (n : nat)
| CleaningStarted
| ColumnsMapped
| ProcessingDate (col : string)
| DatesTooOld (col : string) (n : nat)
| DatesTooNew (col : string) (n : nat)
| DatesConverted (col : string) (invalid_before invalid_after : nat)
| NumericConverted (col : string)
| CleaningCompleted
| MigrationStarted (n : nat)
| MigratedChunk (i total done_rows all_rows : nat)
| MigrationCompleted
| MigrationFailed (e : exn)
| Verifying
| VerificationFailed
| Verified
| GeneratingReport
| Report
| ReportSaved
| CsvNotFound
| LoadingCsv
| LoadedCsv (n : nat)
| Banner
| RunCompleted
| RunFailed (e : exn).

Definition log_record : Type := level * message.

(** Computations that log and may raise. *)
Definition M (A : Type) : Type := list log_record -> outcome A * list log_record.

Definition ret {A} (a : A) : M A := fun l => (Ok a, l).

Definition bind {A B} (m : M A) (k : A -> M B) : M B :=
  fun l =>
    match m l with
    | (Ok a, l') => k a l'
    | (Raised e, l') => (Raised e, l')
    end.

Definition raise {A} (e : exn) : M A := fun l => (Raised e, l).

Definition logger (lv : level) (msg : message) : M unit :=
  fun l => (Ok tt, l ++ [(lv, msg)]).

Declare Scope m_scope.
Delimit Scope m_scope with m.
Notation "x <- m ;; k" := (bind m (fun x => k))
  (at level 61, m at next level, right associativity) : m_scope.
Notation "m ;;; k" := (bind m (fun _ => k))
  (at level 61, right associativity) : m_scope.
Open Scope m_scope.

(* ===================================================================== *)
(** ** What pandas provides *)
(* ===================================================================== *)

(** The parsers and renderers of pandas that the script calls, as the
    functions of a whole column that they are (the format of a date column
    is inferred from the column, not from each value). *)
Record Pandas := {
  (** [pd.to_datetime(series, errors='coerce')]: a timestamp or null. *)
  to_datetime : list cell -> list (option Timestamp);
  (** [pd.to_numeric(series, errors='coerce')]: a number or null. *)
  to_numeric : list cell -> list (option Q);
  (** [str(x)] for a number and for a timestamp. *)
  str_num : Q -> string;
  str_ts : Timestamp -> string;
  (** Whether [replace] infers a numeric dtype for a column it has made
      entirely null (pandas 1 and 2 do, with a deprecation warning in 2). *)
  replace_downcasts : bool;
  (** Both conversions give a column as long as the one they are given. *)
  to_datetime_length : forall cs, List.length (to_datetime cs) = List.length cs;
  to_numeric_length : forall cs, List.length (to_numeric cs) = List.length cs
}.

Definition ts_cell (o : option Timestamp) : cell :=
  match o with Some t => Ts t | None => NaN end.

Definition num_cell (o : option Q) : cell :=
  match o with Some q => Num q | None => NaN end.

(** *** The [.str] accessor *)

(** [s.str.len()]: the length of a text, null otherwise. *)
Definition str_len (c : cell) : option nat :=
  match c with Str s => Some (String.length s) | _ => None end.

(** [s.str.len() > limit]: a null never exceeds the limit. *)
Definition longer_than (limit : nat) (c : cell) : bool :=
  match str_len c with Some n => limit <? n | None => false end.

(** [s.str[:limit]] *)
Definition str_slice (limit : nat) (c : cell) : cell :=
  match c with Str s => Str (substring 0 limit s) | _ => NaN end.

(** Python's whitespace among the code points below 256. *)
Definition is_space (c : ascii) : bool :=
  let n := nat_of_ascii c in
  ((9 <=? n) && (n <=? 13)) || ((28 <=? n) && (n <=? 32))
  || (n =? 133) || (n =? 160).

Fixpoint lstrip (s : string) : string :=
  match s with
  | EmptyString => EmptyString
  | String c s' => if is_space c then lstrip s' else s
  end.

Fixpoint rstrip (s : string) : string :=
  match s with
  | EmptyString => EmptyString
  | String c s' =>
      match rstrip s' with
      | EmptyString => if is_space c then EmptyString else String c EmptyString
      | t => String c t
      end
  end.

(** [str.strip()] *)
Definition strip (s : string) : string := rstrip (lstrip s).

(** [s.str.strip()] *)
Definition str_strip (c : cell) : cell :=
  match c with Str s => Str (strip s) | _ => NaN end.

(** [s.replace('nan', np.nan)] *)
Definition replace_nan (c : cell) : cell :=
  match c with
  | Str s => if String.eqb s "nan" then NaN else c
  | _ => c
  end.

(** [s.astype(str)] *)
Definition astype_str (P : Pandas) (c : cell) : cell :=
  match c with
  | NaN => Str "nan"
  | Str s => Str s
  | Num q => Str (str_num P q)
  | Ts t => Str (str_ts P t)
  end.

(* ===================================================================== *)
(** ** validate_data *)
(* ===================================================================== *)

(** [df.dropna(subset=[col])]: the rows that are null in no column the
    label names; a label that names no column is a KeyError. *)
Definition dropna (col : string) (df : DataFrame) : M DataFrame :=
  match positions col df with
  | [] => raise (KeyError col)
  | js =>
      ret {| columns := columns df;
             rows := filter (fun r => forallb (fun j => notna (cell_at j r)) js)
                            (rows df) |}
  end.

(** [df[col].str]: the position of the column.  The accessor exists on a
    single column of text only: a label that names several columns gives
    a frame, and a numeric or date column has no [.str]. *)
Definition str_accessor (col : string) (df : DataFrame) : M nat :=
  match positions col df with
  | [] => raise (KeyError col)
  | [j] =>
      match dtype_at j df with
      | object_ => ret j
      | _ => raise AttributeError
      end
  | _ => raise AttributeError
  end.

Definition Qltb (a b : Q) : bool := negb (Qle_bool b a).

(** [(s < min_funding_amount) | (s > max_funding_amount)]: a null compares
    false, a text or a timestamp does not compare with a number. *)
Fixpoint invalid_funding_mask (cs : list cell) : outcome (list bool) :=
  match cs with
  | [] => Ok []
  | c :: cs' =>
      match c with
      | NaN =>
          match invalid_funding_mask cs' with
          | Ok m => Ok (false :: m)
          | Raised e => Raised e
          end
      | Num q =>
          match invalid_funding_mask cs' with
          | Ok m => Ok ((Qltb q Config.min_funding_amount
                         || Qltb Config.max_funding_amount q) :: m)
          | Raised e => Raised e
          end
      | _ => Raised TypeError
      end
  end.

Definition lift {A} (o : outcome A) : M A :=
  match o with Ok a => ret a | Raised e => raise e end.

Definition validate_names (df : DataFrame) : M DataFrame :=
  if has_column "name" df then
    j <- str_accessor "name" df ;;
    let long_names := map (longer_than Config.max_name_length) (series j df) in
    if any long_names then
      logger WARNING (LongNames (sum long_names) Config.max_name_length) ;;;
      ret (assign_where long_names j (str_slice Config.max_name_length) df)
    else ret df
  else ret df.

Definition validate_funding (df : DataFrame) : M DataFrame :=
  if has_column "funding_total_usd" df then
    match positions "funding_total_usd" df with
    | [j] =>
        invalid_funding <- lift (invalid_funding_mask (series j df)) ;;
        if any invalid_funding then
          logger WARNING (InvalidFunding (sum invalid_funding)) ;;;
          ret (assign_where invalid_funding j (fun _ => NaN) df)
        else ret df
    | _ => raise ValueError
    end
  else ret df.

Definition validate_data (df : DataFrame) : M DataFrame :=
  logger INFO ValidationStarted ;;;
  let original_count := len df in
  (* Remove rows with missing critical data *)
  df <- dropna "name" df ;;
  logger INFO (RemovedMissingNames (original_count - len df)) ;;;
  (* Validate string lengths *)
  df <- validate_names df ;;
  (* Validate funding amounts *)
  df <- validate_funding df ;;
  logger INFO (ValidationCompleted (len df)) ;;;
  ret df.

(* ===================================================================== *)
(** ** clean_and_transform_data *)
(* ===================================================================== *)

Definition rename_label (l : string) : string :=
  match find (fun p => String.eqb (fst p) l) Config.COLUMN_MAPPING with
  | Some (_, d) => d
  | None => l
  end.

(** [df.rename(columns=COLUMN_MAPPING)] *)
Definition rename (df : DataFrame) : DataFrame :=
  {| columns := map (fun c => (rename_label (fst c), snd c)) (columns df);
     rows := rows df |}.

Definition date_columns : list string :=
  ["FoundedAt"; "FirstFundingAt"; "LastFundingAt"].
Definition numeric_columns : list string :=
  ["FundingTotalUSD"; "FundingRounds"].
Definition string_columns : list string :=
  ["Name"; "HomepageURL"; "CategoryList"; "Status"; "CountryCode";
   "StateCode"; "City"].

Definition sql_server_min_date : Timestamp := mkTs 1753 1 1 0.
Definition sql_server_max_date : Timestamp := mkTs 9999 12 31 0.

(** [s < sql_server_min_date] and [s > sql_server_max_date], false on a
    null. *)
Definition too_old (c : cell) : bool :=
  match c with Ts t => ts_ltb t sql_server_min_date | _ => false end.
Definition too_new (c : cell) : bool :=
  match c with Ts t => ts_gtb t sql_server_max_date | _ => false end.

Definition null_out (mask : list bool) (j : nat) (df : DataFrame) : DataFrame :=
  assign_where mask j (fun _ => NaN) df.

(** The range check of one date column, on the converted column. *)
Definition clamp_dates (col : string) (j : nat) (df : DataFrame) : M DataFrame :=
  if any (map notna (series j df)) then
    let old := map too_old (series j df) in
    let new := map too_new (series j df) in
    df <- (if any old then
             logger WARNING (DatesTooOld col (sum old)) ;;;
             ret (null_out old j df)
           else ret df) ;;
    (if any new then
       logger WARNING (DatesTooNew col (sum new)) ;;;
       ret (null_out new j df)
     else ret df)
  else ret df.

Definition clean_date_column (P : Pandas) (col : string) (df : DataFrame)
  : M DataFrame :=
  if has_column col df then
    logger INFO (ProcessingDate col) ;;;
    match positions col df with
    | [j] =>
        (* Convert to datetime first *)
        let df := assign j datetime64
                    (map ts_cell (to_datetime P (series j df))) df in
        (* Count invalid dates before cleaning *)
        let invalid_before := sum (map isna (series j df)) in
        (* Handle dates outside SQL Server's valid range *)
        df <- clamp_dates col j df ;;
        (* Keep as datetime object *)
        let invalid_after := sum (map isna (series j df)) in
        logger INFO (DatesConverted col invalid_before invalid_after) ;;;
        ret df
    | _ => raise ValueError
    end
  else ret df.

Definition clean_numeric_column (P : Pandas) (col : string) (df : DataFrame)
  : M DataFrame :=
  if has_column col df then
    match positions col df with
    | [j] =>
        let df := assign j float64
                    (map num_cell (to_numeric P (series j df))) df in
        logger INFO (NumericConverted col) ;;;
        ret df
    | _ => raise TypeError
    end
  else ret df.

(** The dtype of a column after [replace('nan', np.nan)]: still text,
    unless every value has become null and pandas infers a float column. *)
Definition replaced_dtype (P : Pandas) (vals : list cell) : dtype :=
  if replace_downcasts P && forallb isna vals
     && negb (Nat.eqb (List.length vals) 0)
  then float64 else object_.

Definition clean_string_column (P : Pandas) (col : string) (df : DataFrame)
  : M DataFrame :=
  if has_column col df then
    match positions col df with
    | [j] =>
        let df := assign j object_ (map (astype_str P) (series j df)) df in
        (* Replace string 'nan' with actual NaN *)
        let replaced := map replace_nan (series j df) in
        let df := assign j (replaced_dtype P replaced) replaced df in
        (* Remove leading/trailing whitespace: [.str] exists on text only *)
        match replaced_dtype P replaced with
        | object_ => ret (assign j object_ (map str_strip (series j df)) df)
        | _ => raise AttributeError
        end
    | _ => raise AttributeError
    end
  else ret df.

(** [for col in cols: ...] threading the frame. *)
Fixpoint for_each (step : string -> DataFrame -> M DataFrame)
    (cols : list string) (df : DataFrame) : M DataFrame :=
  match cols with
  | [] => ret df
  | col :: cols' => df' <- step col df ;; for_each step cols' df'
  end.

Definition clean_and_transform_data (P : Pandas) (df : DataFrame)
  : M DataFrame :=
  logger INFO CleaningStarted ;;;
  (* Rename columns to match database schema *)
  let df := rename df in
  logger INFO ColumnsMapped ;;;
  (* Handle date columns with proper validation *)
  df <- for_each (clean_date_column P) date_columns df ;;
  (* Handle numeric columns *)
  df <- for_each (clean_numeric_column P) numeric_columns df ;;
  (* Clean string columns *)
  df <- for_each (clean_string_column P) string_columns df ;;
  logger INFO CleaningCompleted ;;;
  ret df.

(* ===================================================================== *)
(** ** The destination *)
(* ===================================================================== *)

(** What one [to_sql] call did: it returned, or it raised; either way the
    destination is in some state afterwards. *)
Inductive write_result (S : Type) :=
| Written (s : S)
| WriteFailed (e : exn) (s : S).
Arguments Written {S} s.
Arguments WriteFailed {S} e s.

(** The database behind the engine, as the script uses it. *)
Record Destination := {
  DB : Type;
  (** [chunk_df.to_sql(name, schema, con, if_exists, index=False,
      method='multi')] on the configured table. *)
  to_sql : Config.if_exists_mode -> DataFrame -> DB -> write_result DB;
  (** Whether the count query and the sample query of the verifier both
      run. *)
  queries_run : DB -> bool
}.

(** One [to_sql] call, as issued. *)
Definition call : Type := Config.if_exists_mode * DataFrame.

(** The destination together with the calls issued to it so far. *)
Record writer_state (D : Destination) := mkWriter {
  dest : DB D;
  issued : list call
}.
Arguments mkWriter {D} dest issued.
Arguments dest {D} w.
Arguments issued {D} w.

(* ===================================================================== *)
(** ** migrate_data_to_sql *)
(* ===================================================================== *)

(** [a // b] *)
Definition floordiv (a b : nat) : outcome nat :=
  if b =? 0 then Raised ZeroDivisionError else Ok (a / b).

Fixpoint range_from (fuel start stop step : nat) : list nat :=
  match fuel with
  | O => []
  | S fuel' =>
      if start <? stop then start :: range_from fuel' (start + step) stop step
      else []
  end.

(** [range(start, stop, step)] for a step that is not negative. *)
Definition range (start stop step : nat) : outcome (list nat) :=
  if step =? 0 then Raised ValueError
  else Ok (range_from (stop - start) start stop step).

Section Writer.

Context {D : Destination}.
Variable cfg : Config.migration_config.

(** The body of the loop over [enumerate(range(0, len(df), chunk_size))],
    from iteration [i] on. *)
Fixpoint write_chunks (df : DataFrame) (total_chunks i : nat)
    (starts : list nat) (st : writer_state D) (l : list log_record)
  : outcome unit * writer_state D * list log_record :=
  match starts with
  | [] => (Ok tt, st, l)
  | chunk_start :: rest =>
      let chunk_end := Nat.min (chunk_start + Config.chunksize cfg) (len df) in
      let chunk_df := iloc chunk_start chunk_end df in
      let mode := if 0 <? i then Config.append else Config.if_exists cfg in
      match to_sql D mode chunk_df (dest st) with
      | Written db' =>
          write_chunks df total_chunks (S i) rest
            (mkWriter db' (issued st ++ [(mode, chunk_df)]))
            (l ++ [(INFO, MigratedChunk (i + 1) total_chunks chunk_end (len df))])
      | WriteFailed e db' =>
          (Raised e, mkWriter db' (issued st ++ [(mode, chunk_df)]), l)
      end
  end.

Definition migrate_data_to_sql (df : DataFrame) (db : DB D)
    (l : list log_record) : bool * writer_state D * list log_record :=
  let l := l ++ [(INFO, MigrationStarted (len df))] in
  let st := mkWriter db [] in
  (* Migrate data in chunks *)
  let chunk_size := Config.chunksize cfg in
  match floordiv (len df + chunk_size - 1) chunk_size with
  | Raised e => (false, st, l ++ [(ERROR, MigrationFailed e)])
  | Ok total_chunks =>
      match range 0 (len df) chunk_size with
      | Raised e => (false, st, l ++ [(ERROR, MigrationFailed e)])
      | Ok starts =>
          match write_chunks df total_chunks 0 starts st l with
          | (Ok _, st', l') => (true, st', l' ++ [(INFO, MigrationCompleted)])
          | (Raised e, st', l') =>
              (false, st', l' ++ [(ERROR, MigrationFailed e)])
          end
      end
  end.

(* =================================================================== *)
(** ** verify_migration and generate_summary_report *)
(* =================================================================== *)

Definition verify_migration (db : DB D) (l : list log_record)
  : bool * list log_record :=
  let l := l ++ [(INFO, Verifying)] in
  if queries_run D db then (true, l ++ [(INFO, Verified)])
  else (false, l ++ [(ERROR, VerificationFailed)]).

(** [df[col]] read for a statistic of the report. *)
Definition getitem (col : string) (df : DataFrame) : M unit :=
  match positions col df with
  | [] => raise (KeyError col)
  | _ => ret tt
  end.

(** The report is rendered from the frame, logged, and written to
    [migration_summary_report.txt]; [report_writable] tells whether the
    file can be opened and written. *)
Definition generate_summary_report (report_writable : bool)
    (df : DataFrame) : M unit :=
  logger INFO GeneratingReport ;;;
  getitem "Name" df ;;;
  getitem "FundingTotalUSD" df ;;;
  getitem "CountryCode" df ;;;
  getitem "CategoryList" df ;;;
  logger INFO Report ;;;
  (* Save report to file *)
  if report_writable then logger INFO ReportSaved
  else raise OSError.

(* =================================================================== *)
(** ** main *)
(* =================================================================== *)

(** What the run finds around it. *)
Record World := {
  (** [os.path.exists(CSV_FILE_PATH)] *)
  csv_exists : bool;
  (** [test_connection]: both probes connect. *)
  connection_ok : bool;
  (** [create_database_if_not_exists]: the database is there or could be
      created. *)
  database_ok : bool;
  (** [pd.read_csv(CSV_FILE_PATH)] *)
  read_csv : outcome DataFrame;
  (** The destination when the run starts. *)
  database : DB D;
  (** The report file can be opened and written. *)
  report_writable : bool
}.

(** What a run leaves: the value [main] returns, the destination with the
    calls issued to it, and the log. *)
Record Run := mkRun {
  success : bool;
  final : writer_state D;
  run_log : list log_record
}.

Definition failed (e : exn) (st : writer_state D) (l : list log_record) : Run :=
  mkRun false st (l ++ [(ERROR, RunFailed e)]).

(** Steps 1 to 4 of [main]: the checks, the load, validation and
    cleaning.  Either the run has ended, or the frame to migrate is
    ready. *)
Definition prepare (P : Pandas) (w : World)
  : Run + (DataFrame * list log_record) :=
  let st0 := mkWriter (database w) [] in
  let l := [(INFO, Banner)] in
  (* Check if CSV file exists *)
  if negb (csv_exists w) then inl (mkRun false st0 (l ++ [(ERROR, CsvNotFound)]))
  else
    (* Step 1: Test database connection *)
    if negb (connection_ok w) then inl (mkRun false st0 l)
    (* Step 2: Create database if needed *)
    else if negb (database_ok w) then inl (mkRun false st0 l)
    else
      (* Step 3: Load CSV data *)
      let l := l ++ [(INFO, LoadingCsv)] in
      match read_csv w with
      | Raised e => inl (failed e st0 l)
      | Ok df =>
          let l := l ++ [(INFO, LoadedCsv (len df))] in
          (* Step 4: Validate and clean data *)
          match (df <- validate_data df ;; clean_and_transform_data P df) l with
          | (Raised e, l) => inl (failed e st0 l)
          | (Ok df, l) => inr (df, l)
          end
      end.

(** Steps 5 to 7 of [main]: migrate, verify, report. *)
Definition finish (w : World) (df : DataFrame) (l : list log_record) : Run :=
  (* Step 5: Migrate data *)
  match migrate_data_to_sql df (database w) l with
  | (false, st, l) => mkRun false st l
  | (true, st, l) =>
      (* Step 6: Verify migration *)
      match verify_migration (dest st) l with
      | (false, l) => mkRun false st l
      | (true, l) =>
          (* Step 7: Generate summary report *)
          match generate_summary_report (report_writable w) df l with
          | (Raised e, l) => failed e st l
          | (Ok _, l) => mkRun true st (l ++ [(INFO, RunCompleted)])
          end
      end
  end.

Definition main (P : Pandas) (w : World) : Run :=
  match prepare P w with
  | inl run => run
  | inr (df, l) => finish w df l
  end.

(** *** Vocabulary for the properties of the writer *)

(** The slices the loop cuts from the frame, in order. *)
Definition batches (df : DataFrame) : outcome (list DataFrame) :=
  match range 0 (len df) (Config.chunksize cfg) with
  | Raised e => Raised e
  | Ok starts =>
      Ok (map (fun chunk_start =>
                 iloc chunk_start
                      (Nat.min (chunk_start + Config.chunksize cfg) (len df)) df)
              starts)
  end.

(** The destination after a sequence of calls that all return; [None]
    when one of them raises. *)
Fixpoint commit (calls : list call) (db : DB D) : option (DB D) :=
  match calls with
  | [] => Some db
  | (mode, chunk) :: rest =>
      match to_sql D mode chunk db with
      | Written db' => commit rest db'
      | WriteFailed _ _ => None
      end
  end.

(** The calls the loop issues for the slices [bs] from iteration [i] on,
    as long as none raises. *)
Fixpoint calls_from (i : nat) (bs : list DataFrame) : list call :=
  match bs with
  | [] => []
  | b :: bs' =>
      ((if 0 <? i then Config.append else Config.if_exists cfg), b)
        :: calls_from (S i) bs'
  end.

(** The configured mode for the first call, append for every later one. *)
Definition mode_of_call (k : nat) : Config.if_exists_mode :=
  match k with O => Config.if_exists cfg | S _ => Config.append end.

(** One call per slice: the slice number [k] (from 0) with the mode of the
    call number [k]. *)
Definition planned_calls (bs : list DataFrame) : list call :=
  combine (map mode_of_call (seq 0 (List.length bs))) bs.

(** The destination after the calls have gone through [to_sql] one after
    the other, each on what the one before left, whether it returned or
    raised. *)
Fixpoint replay (calls : list call) (db : DB D) : DB D :=
  match calls with
  | [] => db
  | (mode, chunk) :: rest =>
      match to_sql D mode chunk db with
      | Written db' => replay rest db'
      | WriteFailed _ db' => replay rest db'
      end
  end.

End Writer.

(* ===================================================================== *)
(** ** An instance of pandas and of the destination, for evaluation *)
(* ===================================================================== *)

(** A reading of ISO dates ([YYYY-MM-DD], optionally followed by a
    separator and [HH:MM:SS]) and of decimal numbers, applied value by
    value.  Dates outside the years pandas can hold with nanosecond
    precision are coerced to null, as [errors='coerce'] does. *)
Module IsoPandas.

Definition digit (c : ascii) : option Z :=
  let n := nat_of_ascii c in
  if (48 <=? n) && (n <=? 57) then Some (Z.of_nat (n - 48)) else None.

(** Reads exactly [n] digits. *)
Fixpoint digits (n : nat) (acc : Z) (s : string) : option (Z * string) :=
  match n with
  | O => Some (acc, s)
  | S n' =>
      match s with
      | String c s' =>
          match digit c with
          | Some d => digits n' (10 * acc + d)%Z s'
          | None => None
          end
      | EmptyString => None
      end
  end.

Definition expect (c : ascii) (s : string) : option string :=
  match s with
  | String c' s' => if Ascii.eqb c c' then Some s' else None
  | EmptyString => None
  end.

Definition leap (y : Z) : bool :=
  ((y mod 4 =? 0) && negb (y mod 100 =? 0) || (y mod 400 =? 0))%Z.

Definition days_in_month (y m : Z) : Z :=
  if (m =? 2)%Z then (if leap y then 29 else 28)%Z
  else if ((m =? 4) || (m =? 6) || (m =? 9) || (m =? 11))%Z then 30%Z
  else 31%Z.

Definition parse_time (s : string) : option Z :=
  match digits 2 0 s with
  | Some (h, s1) =>
      match expect ":" s1 with
      | Some s2 =>
          match digits 2 0 s2 with
          | Some (mi, s3) =>
              match expect ":" s3 with
              | Some s4 =>
                  match digits 2 0 s4 with
                  | Some (sec, EmptyString) =>
                      if ((h <? 24) && (mi <? 60) && (sec <? 60))%Z
                      then Some (((h * 60 + mi) * 60 + sec) * 1000000000)%Z
                      else None
                  | _ => None
                  end
              | None => None
              end
          | None => None
          end
      | None => None
      end
  | None => None
  end.

Definition parse_timestamp (s : string) : option Timestamp :=
  match digits 4 0 s with
  | Some (y, s1) =>
      match expect "-" s1 with
      | Some s2 =>
          match digits 2 0 s2 with
          | Some (m, s3) =>
              match expect "-" s3 with
              | Some s4 =>
                  match digits 2 0 s4 with
                  | Some (d, s5) =>
                      if ((1 <=? m) && (m <=? 12) && (1 <=? d)
                          && (d <=? days_in_month y m)
                          && (1678 <=? y) && (y <=? 2261))%Z
                      then
                        match s5 with
                        | EmptyString => Some (mkTs y m d 0)
                        | String c s6 =>
                            if Ascii.eqb c " " || Ascii.eqb c "T" then
                              match parse_time s6 with
                              | Some t => Some (mkTs y m d t)
                              | None => None
                              end
                            else None
                        end
                      else None
                  | None => None
                  end
              | None => None
              end
          | None => None
          end
      | None => None
      end
  | None => None
  end.

Definition datetime_of (c : cell) : option Timestamp :=
  match c with
  | Str s => parse_timestamp s
  | Ts t => Some t
  | _ => None
  end.

(** Reads the digits of a natural number. *)
Fixpoint natural (acc : Z) (s : string) : option Z :=
  match s with
  | EmptyString => Some acc
  | String c s' =>
      match digit c with
      | Some d => natural (10 * acc + d)%Z s'
      | None => None
      end
  end.

Definition parse_integer (s : string) : option Q :=
  match s with
  | EmptyString => None
  | String "-" s' =>
      match s' with
      | EmptyString => None
      | _ => match natural 0 s' with Some n => Some (inject_Z (- n)) | None => None end
      end
  | _ => match natural 0 s with Some n => Some (inject_Z n) | None => None end
  end.

Definition numeric_of (c : cell) : option Q :=
  match c with
  | Str s => parse_integer s
  | Num q => Some q
  | _ => None
  end.

(** Numbers and timestamps are not rendered as text in the examples;
    the two renderers are placeholders. *)
Definition pandas : Pandas :=
  {| to_datetime := map datetime_of;
     to_numeric := map numeric_of;
     str_num := fun _ => "0.0";
     str_ts := fun _ => "1970-01-01";
     replace_downcasts := true;
     to_datetime_length := length_map datetime_of;
     to_numeric_length := length_map numeric_of |}.

End IsoPandas.

(** One table behind a connection that answers a given number of calls
    and then drops.  [to_sql] follows pandas: a missing table is created;
    on a table that exists, [replace] drops and re-creates it, [append]
    adds the rows, [fail] raises. *)
Module SqlTable.

(** The table, when it exists: its columns and its rows. *)
Record state := mkState {
  table : option (list string * list (list cell));
  answers : nat;
  readable : bool
}.

Fixpoint index_of (c : string) (ls : list string) : option nat :=
  match ls with
  | [] => None
  | l :: ls' =>
      if String.eqb c l then Some 0
      else match index_of c ls' with Some k => Some (S k) | None => None end
  end.

(** A row of the chunk laid out on the columns of the table; a column the
    chunk does not have is left null. *)
Definition lay_out (cols chunk_cols : list string) (r : list cell) : list cell :=
  map (fun c => match index_of c chunk_cols with
                | Some k => cell_at k r
                | None => NaN
                end) cols.

Definition subset (xs ys : list string) : bool :=
  forallb (fun x => existsb (String.eqb x) ys) xs.

Definition to_sql (mode : Config.if_exists_mode) (chunk : DataFrame)
    (st : state) : write_result state :=
  match answers st with
  | O => WriteFailed OSError st
  | S n =>
      match table st, mode with
      | Some _, Config.fail => WriteFailed ValueError st
      | Some (cols, old), Config.append =>
          if subset (labels chunk) cols then
            Written (mkState
                       (Some (cols,
                              old ++ map (lay_out cols (labels chunk)) (rows chunk)))
                       n (readable st))
          else WriteFailed OSError st
      | _, _ =>
          Written (mkState (Some (labels chunk, rows chunk)) n (readable st))
      end
  end.

(** The columns the sample query of the verifier selects. *)
Definition sampled : list string :=
  ["Name"; "CategoryList"; "FundingTotalUSD"; "CountryCode"; "Status"].

Definition queries_run (st : state) : bool :=
  match table st with
  | Some (cols, _) => readable st && subset sampled cols
  | None => false
  end.

Definition destination : Destination :=
  Build_Destination state to_sql queries_run.

End SqlTable.

(* ===================================================================== *)
(** ** Vocabulary for the properties of the validator and the cleaner *)
(* ===================================================================== *)

(** What the range check makes of a converted date: null when it lies
    before the minimum or after the maximum, itself otherwise. *)
Definition clamp_cell (c : cell) : cell :=
  if too_old c || too_new c then NaN else c.

(** What the validator makes of a name: cut at the limit when longer. *)
Definition truncate_name (c : cell) : cell :=
  if longer_than Config.max_name_length c
  then str_slice Config.max_name_length c else c.

(** What the cleaner makes of a cell of a text column. *)
Definition clean_text (P : Pandas) (c : cell) : cell :=
  str_strip (replace_nan (astype_str P c)).

(** The computation only adds to the log. *)
Definition appends {A : Type} (m : M A) : Prop :=
  forall l, exists t, snd (m l) = l ++ t.




(** [n] copies of a character. *)
Fixpoint replicate (n : nat) (c : ascii) : string :=
  match n with
  | O => EmptyString
  | S n' => String c (replicate n' c)
  end.

(* ===================================================================== *)
(** ** Example runs *)
(* ===================================================================== *)

Module Examples.

(** The configuration as shipped, but with one row per chunk. *)
Definition one_row_chunks : Config.migration_config :=
  {| Config.table_name := "Companies";
     Config.schema := "dbo";
     Config.if_exists := Config.replace;
     Config.chunksize := 1 |}.

Definition two_row_chunks : Config.migration_config :=
  {| Config.table_name := "Companies";
     Config.schema := "dbo";
     Config.if_exists := Config.replace;
     Config.chunksize := 2 |}.

(** One row per chunk, added to the table that is there. *)
Definition appending : Config.migration_config :=
  {| Config.table_name := "Companies";
     Config.schema := "dbo";
     Config.if_exists := Config.append;
     Config.chunksize := 1 |}.

Definition header : list (string * dtype) :=
  [ ("name", object_); ("homepage_url", object_);
    ("category_list", object_); ("funding_total_usd", float64);
    ("status", object_); ("country_code", object_);
    ("founded_at", object_) ].

Definition acme : list cell :=
  [ Str "Acme"; Str "http://acme.example"; Str "Software"; Num 1000;
    Str "operating"; Str "USA"; Str "2010-05-03 14:30:00" ].

(** A company whose name is three spaces. *)
Definition blank : list cell :=
  [ Str "   "; Str "http://blank.example"; Str "Games"; Num 5;
    Str "closed"; Str "CAN"; Str "1700-01-01 00:00:00" ].

Definition nameless : list cell :=
  [ NaN; NaN; Str "Games"; NaN; Str "closed"; Str "CAN"; NaN ].

Definition zenith : list cell :=
  [ Str "Zenith"; NaN; Str "Health"; Num 20; Str "acquired"; Str "GBR";
    Str "1999-12-31 09:00:00" ].

Definition companies : DataFrame :=
  {| columns := header; rows := [acme; blank; nameless] |}.

Definition three_companies : DataFrame :=
  {| columns := header; rows := [acme; zenith; acme] |}.

Definition five_companies : DataFrame :=
  {| columns := header; rows := [acme; zenith; acme; zenith; acme] |}.

Definition no_companies : DataFrame :=
  {| columns := header; rows := [] |}.

(** A homepage URL of 501 characters. *)
Definition long_url : string := "http://" ++ replicate 494 "a".

Definition long_url_company : DataFrame :=
  {| columns := header;
     rows := [ [ Str "Acme"; Str long_url; Str "Software"; Num 1000;
                 Str "operating"; Str "USA"; Str "2010-05-03" ] ] |}.

(** A table whose header has no [name] column. *)
Definition without_name : DataFrame :=
  {| columns := [ ("homepage_url", object_); ("category_list", object_);
                  ("funding_total_usd", float64); ("status", object_);
                  ("country_code", object_) ];
     rows := [ [ Str "http://acme.example"; Str "Software"; Num 1000;
                 Str "operating"; Str "USA" ] ] |}.

(** A table whose header has no [funding_total_usd] column. *)
Definition without_funding : DataFrame :=
  {| columns := [ ("name", object_); ("category_list", object_);
                  ("status", object_); ("country_code", object_) ];
     rows := [ [ Str "Acme"; Str "Software"; Str "operating"; Str "USA" ] ] |}.

(** A destination without the table, behind a connection that answers
    [answers] calls. *)
Definition fresh (answers : nat) (readable : bool) : SqlTable.state :=
  SqlTable.mkState None answers readable.

(** A destination that holds the table already, with one company. *)
Definition populated : SqlTable.state :=
  SqlTable.mkState
    (Some (["Name"; "HomepageURL"; "CategoryList"; "FundingTotalUSD";
            "Status"; "CountryCode"; "FoundedAt"],
           [ [ Str "Zenith"; NaN; Str "Health"; Num 20; Str "acquired";
               Str "GBR"; Ts (mkTs 1999 12 31 0) ] ]))
    10 true.

(** A world in which the file is there and the database answers the
    checks. *)
Definition world (csv : DataFrame) (db : SqlTable.state)
    (report_writable : bool) : @World SqlTable.destination :=
  @Build_World SqlTable.destination true true true (Ok csv) db report_writable.

Definition pandas : Pandas := IsoPandas.pandas.

(** The frame that validation and cleaning make of a table, empty when
    they raise. *)
Definition cleaned (csv : DataFrame) : DataFrame :=
  match (df <- validate_data csv ;; clean_and_transform_data pandas df) [] with
  | (Ok df, _) => df
  | (Raised _, _) => {| columns := []; rows := [] |}
  end.

(** The log when validation and cleaning of a loaded table are over. *)
Definition prepared_log (csv : DataFrame) : list log_record :=
  snd ((df <- validate_data csv ;; clean_and_transform_data pandas df)
         [(INFO, Banner); (INFO, LoadingCsv); (INFO, LoadedCsv (len csv))]).

(** The writer on the cleaned table. *)
Definition written (cfg : Config.migration_config) (csv : DataFrame)
    (db : SqlTable.state)
  : bool * writer_state SqlTable.destination * list log_record :=
  migrate_data_to_sql (D:=SqlTable.destination) cfg (cleaned csv) db
    (prepared_log csv).

(** The table with all the rows of a cleaned frame. *)
Definition table_of (df : DataFrame) : option (list string * list (list cell)) :=
  Some (labels df, rows df).

(** The destination after the first of the three companies is written
    through a connection that answered one call only. *)
Definition first_written : SqlTable.state :=
  SqlTable.mkState (table_of (iloc 0 1 (cleaned three_companies))) 0 true.

End Examples.

(** More tables and worlds, for the further properties. *)
Module MoreExamples.

(** The header of the examples followed by a column that the mapping does
    not know. *)
Definition header_with_region : list (string * dtype) :=
  Examples.header ++ [("region", object_)].

(** Two companies; the second has a negative funding amount and the
    country code "nan" between two spaces. *)
Definition with_region : DataFrame :=
  {| columns := header_with_region;
     rows := [ Examples.acme ++ [Str " EMEA "];
               [ Str "Borealis"; NaN; Str "Energy"; Num (-5 # 1);
                 Str "operating"; Str " nan "; Str "2001-02-03 00:00:00";
                 Str "APAC" ] ] |}.

(** A table whose name fields are all empty: the column is read as a
    float column. *)
Definition unnamed : DataFrame :=
  {| columns := [("name", float64); ("status", object_)];
     rows := [ [NaN; Str "closed"]; [NaN; Str "operating"] ] |}.

Definition zero_chunks : Config.migration_config :=
  {| Config.table_name := "Companies";
     Config.schema := "dbo";
     Config.if_exists := Config.replace;
     Config.chunksize := 0 |}.

(** The frame and the log that validation makes of a table. *)
Definition validated (csv : DataFrame) : DataFrame :=
  match validate_data csv [] with
  | (Ok df, _) => df
  | (Raised _, _) => {| columns := []; rows := [] |}
  end.

Definition validated_log (csv : DataFrame) : list log_record :=
  snd (validate_data csv []).

(** The log when cleaning follows validation. *)
Definition cleaned_log (csv : DataFrame) : list log_record :=
  snd (clean_and_transform_data Examples.pandas (validated csv)
         (validated_log csv)).

(** A world in which the CSV file is not there. *)
Definition missing_file : @World SqlTable.destination :=
  @Build_World SqlTable.destination false true true
    (Ok Examples.companies) (Examples.fresh 10 true) true.

(** What [main] leaves in that world. *)
Definition not_found : @Run SqlTable.destination :=
  @mkRun SqlTable.destination false
    (mkWriter (D:=SqlTable.destination) (Examples.fresh 10 true) [])
    [(INFO, Banner); (ERROR, CsvNotFound)].

End MoreExamples.

(* ===================================================================== *)
(** ** Vocabulary for the properties of the values written *)
(* ===================================================================== *)

(** The text begins, or ends, with a whitespace character. *)
Definition starts_with_space (s : string) : bool :=
  match s with
  | String c _ => is_space c
  | EmptyString => false
  end.

Fixpoint ends_with_space (s : string) : bool :=
  match s with
  | EmptyString => false
  | String c EmptyString => is_space c
  | String _ s' => ends_with_space s'
  end.

(** A cell of a cleaned text column: null, or a text without whitespace
    around it. *)
Definition trimmed (c : cell) : Prop :=
  c = NaN
  \/ exists s, c = Str s /\ starts_with_space s = false
                /\ ends_with_space s = false.


(** A cell of a cleaned date column: null, or a timestamp that is neither
    before the minimum nor after the maximum of SQL Server. *)
Definition date_in_bounds (c : cell) : Prop :=
  c = NaN
  \/ exists t, c = Ts t
                /\ ts_compare t sql_server_min_date <> Lt
                /\ ts_compare t sql_server_max_date <> Gt.

(** A cell of the cleaned Name column: null, or a text within the limit. *)
Definition name_in_limit (c : cell) : Prop :=
  c = NaN
  \/ exists s, c = Str s /\ String.length s <= Config.max_name_length.

(** The labels that one of the three loops of the cleaner handles. *)
Definition handled_columns : list string :=
  date_columns ++ numeric_columns ++ string_columns.

(** The rows the validator keeps: those whose cell at [j] is not null. *)
Definition kept_rows (j : nat) (df : DataFrame) : list (list cell) :=
  filter (fun r => notna (cell_at j r)) (rows df).

(** The value outside the funding bounds, as the validator tests it. *)
Definition invalid_funding (c : cell) : bool :=
  match c with
  | Num q => Qltb q Config.min_funding_amount
             || Qltb Config.max_funding_amount q
  | _ => false
  end.

(** The value out of the date range, as the cleaner tests it. *)
Definition out_of_range (c : cell) : bool := too_old c || too_new c.

(** The progress line the writer logs after the chunk number [k] (from 0)
    of a frame of [n] rows cut in chunks of [b] rows. *)
Definition progress_line (b n k : nat) : log_record :=
  (INFO, MigratedChunk (k + 1) ((n + b - 1) / b) (Nat.min (k * b + b) n) n).

(* ===================================================================== *)
(** * Properties *)
(* ===================================================================== *)

(** ** Slicing a list of rows *)

Section Ranges.

Variable B : nat.
Hypothesis B_pos : 0 < B.

Lemma range_from_stop fuel start stop :
  stop <= start -> range_from fuel start stop B = [].
Proof.
  intros H. destruct fuel; simpl; [reflexivity|].
  destruct (start <? stop) eqn:E; [|reflexivity].
  apply Nat.ltb_lt in E. lia.
Qed.

Lemma range_from_length fuel start stop :
  stop - start <= fuel ->
  List.length (range_from fuel start stop B) = (stop - start + B - 1) / B.
Proof.
  revert start. induction fuel as [|fuel IH]; intros start Hf; simpl.
  - replace (stop - start + B - 1) with (B - 1) by lia.
    symmetry. apply Nat.div_small. lia.
  - destruct (start <? stop) eqn:E.
    + apply Nat.ltb_lt in E. simpl. rewrite IH by lia.
      destruct (le_lt_dec B (stop - start)) as [Hle|Hlt].
      * replace (stop - start + B - 1)
          with ((stop - (start + B) + B - 1) + 1 * B) by lia.
        rewrite Nat.div_add by lia. lia.
      * replace (stop - (start + B) + B - 1) with (B - 1) by lia.
        replace (stop - start + B - 1)
          with ((stop - start - 1) + 1 * B) by lia.
        rewrite Nat.div_add by lia.
        rewrite !Nat.div_small by lia. reflexivity.
    + apply Nat.ltb_ge in E.
      replace (stop - start + B - 1) with (B - 1) by lia.
      symmetry. apply Nat.div_small. lia.
Qed.

Lemma range_from_nth fuel start stop i :
  i < List.length (range_from fuel start stop B) ->
  nth i (range_from fuel start stop B) 0 = start + i * B.
Proof.
  revert start i. induction fuel as [|fuel IH]; intros start i; simpl.
  - lia.
  - destruct (start <? stop); simpl; [|lia].
    destruct i as [|i]; intros Hi.
    + lia.
    + rewrite IH by lia. lia.
Qed.

End Ranges.

Section Slices.

Context {A : Type}.
Variable rs : list A.
Variable B : nat.
Hypothesis B_pos : 0 < B.

Let n := List.length rs.
Let slice (s : nat) : list A := firstn (Nat.min (s + B) n - s) (skipn s rs).

Lemma slices_concat fuel start :
  n - start <= fuel ->
  List.concat (map slice (range_from fuel start n B)) = skipn start rs.
Proof.
  revert start. induction fuel as [|fuel IH]; intros start Hf; simpl.
  - symmetry. apply skipn_all2. fold n. lia.
  - destruct (start <? n) eqn:E.
    + apply Nat.ltb_lt in E. simpl. rewrite IH by lia. unfold slice.
      destruct (le_lt_dec (start + B) n) as [Hle|Hlt].
      * rewrite Nat.min_l by lia.
        replace (start + B - start) with B by lia.
        replace (start + B) with (B + start) by lia.
        rewrite <- skipn_skipn. apply firstn_skipn.
      * rewrite Nat.min_r by lia.
        rewrite (skipn_all2 (n:=start + B)) by (fold n; lia).
        rewrite app_nil_r. apply firstn_all2.
        rewrite length_skipn. fold n. lia.
    + apply Nat.ltb_ge in E. symmetry. apply skipn_all2. fold n. lia.
Qed.

Lemma slice_window s : slice s = firstn B (skipn s rs).
Proof.
  unfold slice. destruct (le_lt_dec (s + B) n) as [Hle|Hlt].
  - rewrite Nat.min_l by lia. f_equal. lia.
  - rewrite Nat.min_r by lia.
    rewrite !firstn_all2; try reflexivity; rewrite length_skipn; fold n; lia.
Qed.

Lemma slice_bounded s : List.length (slice s) <= B.
Proof. rewrite slice_window, length_firstn. lia. Qed.

End Slices.

(** ** The chunked writer *)

Section WriterProperties.

Context {D : Destination}.
Variable cfg : Config.migration_config.

Let B := Config.chunksize cfg.
Let chunk (df : DataFrame) (s : nat) : DataFrame :=
  iloc s (Nat.min (s + B) (len df)) df.

Lemma calls_from_length i bs : List.length (calls_from cfg i bs) = List.length bs.
Proof. revert i. induction bs as [|b bs IH]; intros i; simpl; auto. Qed.

Lemma calls_from_chunks i bs : map snd (calls_from cfg i bs) = bs.
Proof. revert i. induction bs as [|b bs IH]; intros i; simpl; f_equal; auto. Qed.

Lemma calls_from_app i bs1 bs2 :
  calls_from cfg i (bs1 ++ bs2)
  = calls_from cfg i bs1 ++ calls_from cfg (i + List.length bs1) bs2.
Proof.
  revert i. induction bs1 as [|b bs1 IH]; intros i; simpl.
  - now rewrite Nat.add_0_r.
  - rewrite IH. simpl. now rewrite Nat.add_succ_r.
Qed.

Lemma calls_from_mode i bs k m c :
  nth_error (calls_from cfg i bs) k = Some (m, c) ->
  m = (if 0 <? i + k then Config.append else Config.if_exists cfg)
  /\ nth_error bs k = Some c.
Proof.
  revert i k. induction bs as [|b bs IH]; intros i k H.
  - destruct k; discriminate.
  - destruct k as [|k]; simpl in H.
    + inversion H; subst. now rewrite Nat.add_0_r.
    + apply IH in H. now replace (i + S k) with (S i + k) by lia.
Qed.

(** Whatever happens, the calls issued are the first calls of the plan. *)
Lemma write_chunks_issued df total starts :
  forall i (st : writer_state D) l,
  exists k,
    k <= List.length starts /\
    issued (snd (fst (write_chunks cfg df total i starts st l)))
    = issued st ++ firstn k (calls_from cfg i (map (chunk df) starts)).
Proof.
  induction starts as [|s rest IH]; intros i st l; simpl.
  - exists 0. simpl. now rewrite app_nil_r.
  - fold B. fold (chunk df s).
    destruct (to_sql D _ (chunk df s) (dest st)) as [db'|e db'] eqn:E.
    + destruct (IH (S i)
                   (mkWriter db' (issued st ++
                      [((if 0 <? i then Config.append else Config.if_exists cfg),
                        chunk df s)]))
                   (l ++ [(INFO, MigratedChunk (i + 1) total
                                   (Nat.min (s + B) (len df)) (len df))]))
        as [k [Hk Hi]].
      exists (S k). split; [lia|].
      rewrite Hi. simpl. now rewrite <- app_assoc.
    + exists 1. split; [lia|]. reflexivity.
Qed.

(** The loop ends without an exception exactly when every call of the
    plan returns. *)
Lemma write_chunks_ok df total starts :
  forall i (st : writer_state D) l u st' l',
    write_chunks cfg df total i starts st l = (Ok u, st', l') ->
    issued st' = issued st ++ calls_from cfg i (map (chunk df) starts)
    /\ commit (calls_from cfg i (map (chunk df) starts)) (dest st)
       = Some (dest st').
Proof.
  induction starts as [|s rest IH]; intros i st l u st' l' H; simpl in *.
  - inversion H; subst. now rewrite app_nil_r.
  - fold B in H |- *. fold (chunk df s) in H |- *.
    destruct (to_sql D _ (chunk df s) (dest st)) as [db'|e db'] eqn:E.
    + apply IH in H. simpl in H. destruct H as [H1 H2].
      now rewrite H1, <- app_assoc.
    + discriminate.
Qed.

Lemma write_chunks_commits df total starts :
  forall i (st : writer_state D) l db',
    commit (calls_from cfg i (map (chunk df) starts)) (dest st) = Some db' ->
    exists l',
      write_chunks cfg df total i starts st l
      = (Ok tt,
         mkWriter db' (issued st ++ calls_from cfg i (map (chunk df) starts)),
         l').
Proof.
  induction starts as [|s rest IH]; intros i st l db' H; simpl in *.
  - inversion H; subst. exists l. rewrite app_nil_r. now destruct st.
  - fold B in H |- *. fold (chunk df s) in H |- *.
    destruct (to_sql D _ (chunk df s) (dest st)) as [db1|e db1] eqn:E;
      [|discriminate].
    edestruct IH as [l' Hl']; [|rewrite Hl'].
    + simpl. exact H.
    + exists l'. simpl. now rewrite <- app_assoc.
Qed.

(** The loop stops at the first call that raises. *)
Lemma write_chunks_aborts df total done s rest :
  forall i (st : writer_state D) l db_k e db_f,
    commit (calls_from cfg i (map (chunk df) done)) (dest st) = Some db_k ->
    to_sql D (if 0 <? i + List.length done then Config.append
              else Config.if_exists cfg) (chunk df s) db_k
    = WriteFailed e db_f ->
    exists l',
      write_chunks cfg df total i (done ++ s :: rest) st l
      = (Raised e,
         mkWriter db_f
           (issued st ++ calls_from cfg i (map (chunk df) (done ++ [s]))),
         l').
Proof.
  induction done as [|s0 done IH]; intros i st l db_k e db_f Hc Hf; simpl in *.
  - inversion Hc; subst. rewrite Nat.add_0_r in Hf.
    fold B. fold (chunk df s). rewrite Hf. now exists l.
  - fold B in Hc |- *. fold (chunk df s0) in Hc |- *.
    destruct (to_sql D _ (chunk df s0) (dest st)) as [db1|e1 db1] eqn:E;
      [|discriminate].
    edestruct IH as [l' Hl']; [| |rewrite Hl'].
    + simpl. exact Hc.
    + replace (S i + List.length done) with (i + S (List.length done)) by lia.
      exact Hf.
    + exists l'. simpl. now rewrite <- app_assoc.
Qed.

(** [migrate_data_to_sql] for a positive chunk size: the loop over the
    range. *)
Lemma migrate_unfold df (db : DB D) l :
  0 < B ->
  migrate_data_to_sql cfg df db l
  = match write_chunks cfg df ((len df + B - 1) / B) 0
            (range_from (len df) 0 (len df) B) (mkWriter db [])
            (l ++ [(INFO, MigrationStarted (len df))]) with
    | (Ok _, st', l') => (true, st', l' ++ [(INFO, MigrationCompleted)])
    | (Raised e, st', l') => (false, st', l' ++ [(ERROR, MigrationFailed e)])
    end.
Proof.
  intros HB. unfold migrate_data_to_sql, floordiv, range. fold B.
  destruct (B =? 0) eqn:E; [apply Nat.eqb_eq in E; lia|].
  now rewrite Nat.sub_0_r.
Qed.

Lemma batches_unfold df :
  0 < B ->
  batches cfg df = Ok (map (chunk df) (range_from (len df) 0 (len df) B)).
Proof.
  intros HB. unfold batches, range. fold B.
  destruct (B =? 0) eqn:E; [apply Nat.eqb_eq in E; lia|].
  now rewrite Nat.sub_0_r.
Qed.

Lemma batches_positive df bs : batches cfg df = Ok bs -> 0 < B.
Proof.
  unfold batches, range. fold B.
  destruct (B =? 0) eqn:E; [discriminate|].
  apply Nat.eqb_neq in E. lia.
Qed.

Lemma migrate_success_issued df (db : DB D) l st l' :
  0 < B ->
  migrate_data_to_sql cfg df db l = (true, st, l') ->
  issued st = calls_from cfg 0 (map (chunk df) (range_from (len df) 0 (len df) B))
  /\ commit (issued st) db = Some (dest st).
Proof.
  intros HB H. rewrite migrate_unfold in H by assumption.
  destruct (write_chunks _ _ _ _ _ _ _) as [[[u|e] st1] l1] eqn:E;
    inversion H; subst.
  apply write_chunks_ok in E. simpl in E. destruct E as [E1 E2].
  rewrite E1. auto.
Qed.

Lemma ceiling_bounds n :
  0 < B ->
  n <= (n + B - 1) / B * B /\ (n + B - 1) / B * B < n + B.
Proof.
  intros HB.
  pose proof (Nat.div_mod_eq (n + B - 1) B) as E.
  pose proof (Nat.mod_upper_bound (n + B - 1) B) as U.
  nia.
Qed.

Lemma calls_from_by_index i bs :
  calls_from cfg i bs
  = combine (map (fun k => if 0 <? k then Config.append
                           else Config.if_exists cfg)
                 (seq i (List.length bs))) bs.
Proof.
  revert i. induction bs as [|b bs IH]; intros i; simpl; [reflexivity|].
  now rewrite IH.
Qed.

Lemma calls_from_planned bs : calls_from cfg 0 bs = planned_calls cfg bs.
Proof.
  rewrite calls_from_by_index. unfold planned_calls. f_equal.
  apply map_ext. intros k. destruct k; reflexivity.
Qed.

(** Whatever happens, the destination is what the calls issued made of it
    through [to_sql], and these calls are the first calls of the plan. *)
Lemma write_chunks_replay df total starts :
  forall i (st : writer_state D) l,
  exists k,
    k <= List.length starts
    /\ issued (snd (fst (write_chunks cfg df total i starts st l)))
       = issued st ++ firstn k (calls_from cfg i (map (chunk df) starts))
    /\ dest (snd (fst (write_chunks cfg df total i starts st l)))
       = replay (firstn k (calls_from cfg i (map (chunk df) starts))) (dest st).
Proof.
  induction starts as [|s rest IH]; intros i st l; simpl.
  - exists 0. simpl. rewrite app_nil_r. auto.
  - fold B. fold (chunk df s).
    destruct (to_sql D _ (chunk df s) (dest st)) as [db'|e db'] eqn:E.
    + destruct (IH (S i)
                   (mkWriter db' (issued st ++
                      [((if 0 <? i then Config.append else Config.if_exists cfg),
                        chunk df s)]))
                   (l ++ [(INFO, MigratedChunk (i + 1) total
                                   (Nat.min (s + B) (len df)) (len df))]))
        as [k [Hk [Hi Hd]]].
      exists (S k). split; [lia|]. split.
      * rewrite Hi. simpl. now rewrite <- app_assoc.
      * rewrite Hd. simpl. now rewrite E.
    + exists 1. split; [lia|]. split; simpl; [reflexivity|now rewrite E].
Qed.

Lemma migrate_replay df (db : DB D) l :
  0 < B ->
  exists k,
    k <= List.length (range_from (len df) 0 (len df) B)
    /\ issued (snd (fst (migrate_data_to_sql cfg df db l)))
       = firstn k (planned_calls cfg
                     (map (chunk df) (range_from (len df) 0 (len df) B)))
    /\ dest (snd (fst (migrate_data_to_sql cfg df db l)))
       = replay (firstn k (planned_calls cfg
                             (map (chunk df)
                                  (range_from (len df) 0 (len df) B)))) db.
Proof.
  intros HB. rewrite migrate_unfold by exact HB.
  destruct (write_chunks_replay df ((len df + B - 1) / B)
              (range_from (len df) 0 (len df) B) 0 (mkWriter db [])
              (l ++ [(INFO, MigrationStarted (len df))])) as [k [Hk [Hi Hd]]].
  rewrite calls_from_planned in Hi, Hd.
  exists k. split; [exact Hk|].
  destruct (write_chunks _ _ _ _ _ _ _) as [[[u|e] st1] l1]; simpl in *; auto.
Qed.

(** When every call of the plan returns, the writer makes them all, in
    order, and reports success. *)
Lemma migrate_commits df (db db' : DB D) l :
  0 < B ->
  commit (planned_calls cfg (map (chunk df) (range_from (len df) 0 (len df) B)))
         db = Some db' ->
  exists l',
    migrate_data_to_sql cfg df db l
    = (true,
       mkWriter db'
         (planned_calls cfg (map (chunk df) (range_from (len df) 0 (len df) B))),
       l').
Proof.
  intros HB Hc. rewrite migrate_unfold by exact HB.
  rewrite <- calls_from_planned in Hc |- *.
  destruct (write_chunks_commits df ((len df + B - 1) / B)
              (range_from (len df) 0 (len df) B) 0 (mkWriter db [])
              (l ++ [(INFO, MigrationStarted (len df))]) db' Hc) as [l' Hl'].
  rewrite Hl'. simpl. eexists. reflexivity.
Qed.

(** C4.  For a positive chunk size B, the slices the writer cuts from a
    frame of N rows are ceil(N/B) in number, each holds at most B rows,
    the i-th holds the B rows that follow the first i*B rows (so the
    slices are contiguous, in order and do not overlap), joined they are
    the rows of the frame and their sizes add up to N.  The writer hands
    these slices to [to_sql] one by one, in order: on every destination
    the calls it makes are the first calls of that plan and the
    destination is what they made of it, and when each call returns it
    makes them all, reports success and leaves the destination that the
    whole plan gives; so a migration that succeeds has written exactly
    these slices. *)
Theorem chunked_writer_partitions (df : DataFrame) :
  0 < Config.chunksize cfg ->
  exists bs : list DataFrame,
    batches cfg df = Ok bs
    /\ List.length bs
       = (len df + Config.chunksize cfg - 1) / Config.chunksize cfg
    /\ (len df <= List.length bs * Config.chunksize cfg
        /\ List.length bs * Config.chunksize cfg < len df + Config.chunksize cfg)
    /\ List.concat (map rows bs) = rows df
    /\ (forall i, i < List.length bs ->
          rows (nth i bs df)
          = firstn (Config.chunksize cfg)
                   (skipn (i * Config.chunksize cfg) (rows df)))
    /\ Forall (fun b => len b <= Config.chunksize cfg) bs
    /\ list_sum (map len bs) = len df
    /\ (forall (db : DB D) l st l',
          migrate_data_to_sql cfg df db l = (true, st, l') ->
          map snd (issued st) = bs)
    /\ (forall (db : DB D) l,
          exists k,
            k <= List.length bs
            /\ map snd (issued (snd (fst (migrate_data_to_sql cfg df db l))))
               = firstn k bs
            /\ dest (snd (fst (migrate_data_to_sql cfg df db l)))
               = replay (firstn k (planned_calls cfg bs)) db)
    /\ (forall (db db' : DB D) l,
          commit (planned_calls cfg bs) db = Some db' ->
          fst (fst (migrate_data_to_sql cfg df db l)) = true
          /\ dest (snd (fst (migrate_data_to_sql cfg df db l))) = db'
          /\ map snd (issued (snd (fst (migrate_data_to_sql cfg df db l))))
             = bs).
Proof.
  intros HB. fold B in HB |- *.
  set (starts := range_from (len df) 0 (len df) B).
  assert (Hrows : map rows (map (chunk df) starts)
                  = map (fun s => firstn (Nat.min (s + B) (len df) - s)
                                         (skipn s (rows df))) starts).
  { rewrite map_map. reflexivity. }
  assert (Hlen : List.length starts = (len df + B - 1) / B).
  { unfold starts. rewrite (range_from_length B HB) by lia.
    now rewrite Nat.sub_0_r. }
  assert (Hcat : List.concat (map rows (map (chunk df) starts)) = rows df).
  { rewrite Hrows. unfold starts, len.
    now rewrite (slices_concat (rows df) B HB) by lia. }
  exists (map (chunk df) starts).
  split; [now apply batches_unfold|].
  split; [now rewrite length_map|].
  split; [rewrite length_map, Hlen; now apply ceiling_bounds|].
  split; [exact Hcat|].
  split; [|split; [|split; [|split; [|split]]]].
  - intros i Hi. rewrite length_map in Hi.
    rewrite (nth_indep _ df (chunk df 0)) by now rewrite length_map.
    rewrite map_nth. unfold starts.
    rewrite (range_from_nth B HB) by exact Hi.
    simpl. unfold len. now rewrite (slice_window (rows df) B HB).
  - apply Forall_forall. intros b Hb.
    apply in_map_iff in Hb. destruct Hb as [s [<- _]].
    unfold chunk, iloc, len. simpl. now apply slice_bounded.
  - transitivity (List.length (List.concat (map rows (map (chunk df) starts)))).
    + rewrite length_concat, !map_map. reflexivity.
    + now rewrite Hcat.
  - intros db l st l' H.
    apply migrate_success_issued in H; [|exact HB].
    destruct H as [H _]. rewrite H. apply calls_from_chunks.
  - intros db l.
    destruct (migrate_replay df db l HB) as [k [Hk [Hi Hd]]].
    exists k. split; [now rewrite length_map|]. split; [|exact Hd].
    fold starts in Hi. rewrite Hi, <- firstn_map.
    now rewrite <- calls_from_planned, calls_from_chunks.
  - intros db db' l Hc.
    destruct (migrate_commits df db db' l HB Hc) as [l' Hl'].
    fold starts in Hl'. rewrite Hl'. simpl.
    split; [reflexivity|]. split; [reflexivity|].
    now rewrite <- calls_from_planned, calls_from_chunks.
Qed.

Lemma mode_of_call_loop k :
  (if 0 <? 0 + k then Config.append else Config.if_exists cfg)
  = mode_of_call cfg k.
Proof. destruct k; reflexivity. Qed.

Lemma migrate_issued_prefix df (db : DB D) l :
  exists k bs,
    issued (snd (fst (migrate_data_to_sql cfg df db l)))
    = firstn k (calls_from cfg 0 bs).
Proof.
  destruct (Nat.eq_dec B 0) as [E|NE].
  - exists 0, []. unfold migrate_data_to_sql, floordiv. fold B.
    rewrite E. reflexivity.
  - rewrite migrate_unfold by lia.
    destruct (write_chunks_issued df ((len df + B - 1) / B)
                (range_from (len df) 0 (len df) B) 0 (mkWriter db [])
                (l ++ [(INFO, MigrationStarted (len df))])) as [k [_ Hk]].
    exists k, (map (chunk df) (range_from (len df) 0 (len df) B)).
    destruct (write_chunks _ _ _ _ _ _ _) as [[[u|e] st1] l1]; exact Hk.
Qed.

Lemma later_calls_append i (rest : list DataFrame) :
  combine (map (mode_of_call cfg) (seq (S i) (List.length rest))) rest
  = map (fun c => (Config.append, c)) rest.
Proof.
  revert i. induction rest as [|c rest IH]; intros i; simpl; [reflexivity|].
  now rewrite IH.
Qed.

(** C9.  Whatever the configured mode, the writer hands the first batch
    to [to_sql] with the configured mode and every later batch with
    append: the plan of a frame is its first slice with the configured
    mode followed by the other slices with append; every call the writer
    makes carries the mode of its rank, and the destination it leaves is
    what these calls made of it through [to_sql], one after the other;
    when each call of the plan returns, the writer makes them all,
    reports success and leaves the destination the plan gives, and a
    migration that succeeds has made one call per batch, in order. *)
Theorem first_batch_decides_mode (df : DataFrame) (db : DB D)
    (l : list log_record) :
  (forall k m c,
      nth_error (issued (snd (fst (migrate_data_to_sql cfg df db l)))) k
      = Some (m, c) ->
      m = mode_of_call cfg k)
  /\ (fst (fst (migrate_data_to_sql cfg df db l)) = true ->
      batches cfg df
      = Ok (map snd (issued (snd (fst (migrate_data_to_sql cfg df db l))))))
  /\ dest (snd (fst (migrate_data_to_sql cfg df db l)))
     = replay (issued (snd (fst (migrate_data_to_sql cfg df db l)))) db
  /\ (forall b rest,
        planned_calls cfg (b :: rest)
        = (Config.if_exists cfg, b) :: map (fun c => (Config.append, c)) rest)
  /\ (forall bs db',
        batches cfg df = Ok bs ->
        commit (planned_calls cfg bs) db = Some db' ->
        fst (fst (migrate_data_to_sql cfg df db l)) = true
        /\ snd (fst (migrate_data_to_sql cfg df db l))
           = mkWriter db' (planned_calls cfg bs)).
Proof.
  split; [|split; [|split; [|split]]].
  - intros k m c H.
    destruct (migrate_issued_prefix df db l) as [n [bs Hn]].
    rewrite Hn in H.
    assert (H' : nth_error (calls_from cfg 0 bs) k = Some (m, c)).
    { rewrite nth_error_firstn in H.
      destruct (k <? n); [exact H|discriminate]. }
    apply calls_from_mode in H'. destruct H' as [H' _].
    now rewrite mode_of_call_loop in H'.
  - intros H.
    destruct (migrate_data_to_sql cfg df db l) as [[ok st] l'] eqn:E.
    simpl in H. subst ok. simpl.
    assert (HB : 0 < B).
    { destruct (Nat.eq_dec B 0) as [E0|]; [|lia].
      unfold migrate_data_to_sql, floordiv in E. fold B in E.
      rewrite E0 in E. discriminate. }
    apply migrate_success_issued in E; [|exact HB].
    destruct E as [E _]. rewrite E, calls_from_chunks.
    now apply batches_unfold.
  - destruct (Nat.eq_dec B 0) as [E0|NE].
    + unfold migrate_data_to_sql, floordiv. fold B. rewrite E0. reflexivity.
    + destruct (migrate_replay df db l) as [k [_ [Hi Hd]]]; [lia|].
      now rewrite Hi, Hd.
  - intros b rest. unfold planned_calls. simpl.
    now rewrite later_calls_append.
  - intros bs db' Hb Hc.
    pose proof (batches_positive _ _ Hb) as HB.
    rewrite batches_unfold in Hb by exact HB. inversion Hb. subst bs.
    destruct (migrate_commits df db db' l HB Hc) as [l' Hl'].
    rewrite Hl'. simpl. auto.
Qed.

(** C10.  On a frame without rows (and a positive chunk size) the writer
    issues no call at all, leaves the destination as it found it whatever
    the configured mode, and reports success. *)
Theorem empty_frame_writes_nothing (df : DataFrame) (db : DB D)
    (l : list log_record) :
  len df = 0 ->
  0 < Config.chunksize cfg ->
  migrate_data_to_sql cfg df db l
  = (true, mkWriter db [],
     l ++ [(INFO, MigrationStarted 0)] ++ [(INFO, MigrationCompleted)]).
Proof.
  intros Hn HB. fold B in HB. rewrite migrate_unfold by exact HB.
  rewrite Hn. simpl. now rewrite <- app_assoc.
Qed.

(** C5.  When the first batches are written and the write of the next
    one raises, the writer reports failure and so does the driver; the
    failing call is the last one issued, and the destination is left as
    that call left it on top of the batches already written: nothing is
    rolled back and no later batch is attempted. *)
Theorem batch_failure_aborts_without_rollback (P : Pandas) (w : World)
    (df : DataFrame) (l : list log_record)
    (done : list DataFrame) (b : DataFrame) (rest : list DataFrame)
    (db_k db_f : DB D) (e : exn) :
  prepare P w = inr (df, l) ->
  batches cfg df = Ok (done ++ b :: rest) ->
  commit (calls_from cfg 0 done) (database w) = Some db_k ->
  to_sql D (mode_of_call cfg (List.length done)) b db_k = WriteFailed e db_f ->
  fst (fst (migrate_data_to_sql cfg df (database w) l)) = false
  /\ success (main cfg P w) = false
  /\ dest (final (main cfg P w)) = db_f
  /\ issued (final (main cfg P w)) = calls_from cfg 0 (done ++ [b]).
Proof.
  intros Hp Hb Hc Hf.
  pose proof (batches_positive _ _ Hb) as HB.
  rewrite batches_unfold in Hb by exact HB.
  inversion Hb as [Hm]. clear Hb.
  apply map_eq_app in Hm. destruct Hm as [s1 [s2' [Es [E1 E2]]]].
  apply map_eq_cons in E2. destruct E2 as [s [s2 [Es2 [Eb E2]]]].
  subst s2'.
  assert (Hmig : exists l',
             migrate_data_to_sql cfg df (database w) l
             = (false, mkWriter db_f (calls_from cfg 0 (done ++ [b])), l')).
  { rewrite migrate_unfold by exact HB. rewrite Es.
    destruct (write_chunks_aborts df ((len df + B - 1) / B) s1 s s2 0
                (mkWriter (database w) [])
                (l ++ [(INFO, MigrationStarted (len df))]) db_k e db_f)
      as [l' Hl'].
    - simpl. now rewrite E1.
    - rewrite mode_of_call_loop, Eb.
      rewrite <- E1, length_map in Hf. exact Hf.
    - rewrite Hl'. simpl. rewrite map_app. simpl. rewrite E1, Eb.
      eexists. reflexivity. }
  destruct Hmig as [l' Hmig].
  unfold main. rewrite Hp. unfold finish. rewrite Hmig. simpl. auto.
Qed.

(** C7, as the code has it.  When writing and verification completed and
    the report step raises, the driver catches the exception and reports
    failure; the destination stays as the writer left it. *)
Theorem report_failure_fails_run (P : Pandas) (w : World)
    (df : DataFrame) (l l1 l2 : list log_record) (st : writer_state D)
    (e : exn) :
  prepare P w = inr (df, l) ->
  migrate_data_to_sql cfg df (database w) l = (true, st, l1) ->
  queries_run D (dest st) = true ->
  generate_summary_report (report_writable w) df
    (snd (verify_migration (dest st) l1)) = (Raised e, l2) ->
  success (main cfg P w) = false
  /\ final (main cfg P w) = st
  /\ In (ERROR, RunFailed e) (run_log (main cfg P w)).
Proof.
  intros Hp Hm Hq Hr. unfold main. rewrite Hp. unfold finish. rewrite Hm.
  unfold verify_migration in *. rewrite Hq in *. simpl in Hr. rewrite Hr.
  simpl. repeat split. apply in_or_app. right. now left.
Qed.

End WriterProperties.

(** ** Frames: reading and assigning columns *)

Lemma cell_at_put_same j v r : cell_at j (put j v r) = v.
Proof.
  unfold cell_at. revert r. induction j as [|j IH]; intros [|x r]; simpl; auto.
Qed.

Lemma cell_at_put_other j j' v r : j <> j' -> cell_at j' (put j v r) = cell_at j' r.
Proof.
  unfold cell_at. revert j' r.
  induction j as [|j IH]; intros [|j'] [|x r] H; simpl; try congruence; auto.
  - destruct j'; reflexivity.
  - rewrite IH by congruence. destruct j'; reflexivity.
Qed.

Lemma series_assign_same j d vals df :
  List.length vals = len df -> series j (assign j d vals df) = vals.
Proof.
  unfold series, assign, len. simpl. generalize (rows df) as rs.
  intros rs. revert vals. induction rs as [|r rs IH]; intros [|v vals] H;
    simpl in *; try discriminate; auto.
  rewrite cell_at_put_same. f_equal. apply IH. congruence.
Qed.

Lemma series_assign_other j j' d vals df :
  j <> j' -> series j' (assign j d vals df) = series j' df.
Proof.
  intros H. unfold series, assign. simpl. generalize (rows df) as rs.
  intros rs. revert vals. induction rs as [|r rs IH]; intros vals; simpl; auto.
  rewrite cell_at_put_other by exact H. f_equal. apply IH.
Qed.

Lemma len_assign j d vals df : len (assign j d vals df) = len df.
Proof.
  unfold len, assign. simpl. generalize (rows df) as rs. intros rs.
  revert vals. induction rs as [|r rs IH]; intros vals; simpl; auto.
Qed.

Lemma labels_set_dtype j d cols : map fst (set_dtype j d cols) = map fst cols.
Proof.
  revert j. induction cols as [|[l0 d0] cols IH]; intros [|j]; simpl; auto.
  now rewrite IH.
Qed.

Lemma labels_assign j d vals df : labels (assign j d vals df) = labels df.
Proof. unfold labels, assign. simpl. apply labels_set_dtype. Qed.

Lemma assign_where_rows_other mask j j' f rs :
  j <> j' ->
  map (cell_at j') (assign_where_rows mask j f rs) = map (cell_at j') rs.
Proof.
  intros H. revert mask. induction rs as [|r rs IH]; intros mask; simpl; auto.
  rewrite IH. f_equal. destruct (hd false mask); auto.
  now apply cell_at_put_other.
Qed.

Lemma assign_where_rows_length mask j f rs :
  List.length (assign_where_rows mask j f rs) = List.length rs.
Proof. revert mask. induction rs; intros mask; simpl; auto. Qed.

Lemma assign_where_rows_none mask j f rs :
  any mask = false -> assign_where_rows mask j f rs = rs.
Proof.
  revert mask. induction rs as [|r rs IH]; intros mask H; simpl; auto.
  destruct mask as [|b mask]; simpl in *.
  - f_equal. now apply IH.
  - apply orb_false_iff in H. destruct H as [-> H]. f_equal. now apply IH.
Qed.

Lemma assign_where_none mask j f df :
  any mask = false -> assign_where mask j f df = df.
Proof.
  intros H. unfold assign_where. rewrite assign_where_rows_none by exact H.
  now destruct df.
Qed.

(** Assigning under a mask computed from the column itself. *)
Lemma series_assign_where_same p j f df :
  series j (assign_where (map p (series j df)) j f df)
  = map (fun c => if p c then f c else c) (series j df).
Proof.
  unfold series, assign_where. simpl. generalize (rows df) as rs.
  induction rs as [|r rs IH]; simpl; auto.
  rewrite IH. f_equal. destruct (p (cell_at j r)); auto.
  apply cell_at_put_same.
Qed.

Lemma series_assign_where_other mask j j' f df :
  j <> j' -> series j' (assign_where mask j f df) = series j' df.
Proof. intros H. now apply assign_where_rows_other. Qed.

Lemma len_assign_where mask j f df : len (assign_where mask j f df) = len df.
Proof. apply assign_where_rows_length. Qed.

Lemma labels_assign_where mask j f df : labels (assign_where mask j f df) = labels df.
Proof. reflexivity. Qed.

Lemma series_length j df : List.length (series j df) = len df.
Proof. apply length_map. Qed.

(** *** Labels and positions *)

Lemma positions_from_label j0 col ls j :
  In j (positions_from j0 col ls) <->
  j0 <= j /\ nth_error ls (j - j0) = Some col.
Proof.
  revert j0. induction ls as [|l ls IH]; intros j0; simpl.
  - split; [tauto|]. intros [_ H]. destruct (j - j0); discriminate.
  - destruct (String.eqb col l) eqn:E.
    + apply String.eqb_eq in E. subst l. simpl. rewrite IH. split.
      * intros [<-|[H1 H2]].
        -- split; [lia|]. now rewrite Nat.sub_diag.
        -- split; [lia|]. replace (j - j0) with (S (j - S j0)) by lia. exact H2.
      * intros [H1 H2]. destruct (Nat.eq_dec j0 j) as [->|NE]; [now left|].
        right. split; [lia|].
        replace (j - j0) with (S (j - S j0)) in H2 by lia. exact H2.
    + apply String.eqb_neq in E. rewrite IH. split.
      * intros [H1 H2]. split; [lia|].
        replace (j - j0) with (S (j - S j0)) by lia. exact H2.
      * intros [H1 H2]. destruct (Nat.eq_dec j0 j) as [->|NE].
        -- rewrite Nat.sub_diag in H2. simpl in H2. congruence.
        -- split; [lia|].
           replace (j - j0) with (S (j - S j0)) in H2 by lia. exact H2.
Qed.

Lemma positions_label col df j :
  In j (positions col df) <-> nth_error (labels df) j = Some col.
Proof.
  unfold positions. rewrite positions_from_label, Nat.sub_0_r.
  split; [tauto|]. intros H. split; [lia|exact H].
Qed.

Lemma positions_unique_label col df j :
  positions col df = [j] -> nth_error (labels df) j = Some col.
Proof. intros H. apply positions_label. rewrite H. now left. Qed.

Lemma positions_labels col df df' :
  labels df' = labels df -> positions col df' = positions col df.
Proof. unfold positions. now intros ->. Qed.

Lemma has_column_labels col df df' :
  labels df' = labels df -> has_column col df' = has_column col df.
Proof. unfold has_column. now intros ->. Qed.

Lemma has_column_positions col df :
  has_column col df = false -> positions col df = [].
Proof.
  unfold has_column, positions. generalize 0 as j0.
  induction (labels df) as [|l ls IH]; intros j0 H; simpl in *; auto.
  apply orb_false_iff in H. destruct H as [-> H]. now apply IH.
Qed.

Lemma labels_rename df : labels (rename df) = map rename_label (labels df).
Proof. unfold labels, rename. simpl. now rewrite !map_map. Qed.

(** ** The log only grows *)

Lemma appends_ret {A} (a : A) : appends (ret a).
Proof. intros l. exists []. simpl. now rewrite app_nil_r. Qed.

Lemma appends_raise {A} (e : exn) : appends (@raise A e).
Proof. intros l. exists []. simpl. now rewrite app_nil_r. Qed.

Lemma appends_logger lv msg : appends (logger lv msg).
Proof. intros l. now exists [(lv, msg)]. Qed.

Lemma appends_bind {A B} (m : M A) (k : A -> M B) :
  appends m -> (forall a, appends (k a)) -> appends (bind m k).
Proof.
  intros Hm Hk l. unfold bind. destruct (Hm l) as [t Ht].
  destruct (m l) as [[a|e] l1]; simpl in *; subst l1.
  - destruct (Hk a (l ++ t)) as [t' Ht']. exists (t ++ t').
    now rewrite Ht', app_assoc.
  - now exists t.
Qed.

Lemma appends_lift {A} (o : outcome A) : appends (lift o).
Proof. destruct o; [apply appends_ret|apply appends_raise]. Qed.

Ltac appends_step :=
  first
    [ apply appends_ret
    | apply appends_raise
    | apply appends_logger
    | apply appends_lift
    | apply appends_bind; [|intro]
    | match goal with
      | |- appends (if ?b then _ else _) => destruct b
      | |- appends (match ?x with _ => _ end) => destruct x
      end ].

Lemma appends_dropna col df : appends (dropna col df).
Proof. unfold dropna. repeat appends_step. Qed.

Lemma appends_validate_names df : appends (validate_names df).
Proof. unfold validate_names, str_accessor. repeat appends_step. Qed.

Lemma appends_validate_funding df : appends (validate_funding df).
Proof. unfold validate_funding. repeat appends_step. Qed.

Lemma appends_clamp_dates col j df : appends (clamp_dates col j df).
Proof. unfold clamp_dates. repeat appends_step. Qed.

Lemma appends_clean_date_column P col df : appends (clean_date_column P col df).
Proof.
  unfold clean_date_column.
  repeat first [apply appends_clamp_dates | appends_step].
Qed.

Lemma appends_clean_numeric_column P col df :
  appends (clean_numeric_column P col df).
Proof. unfold clean_numeric_column. repeat appends_step. Qed.

Lemma appends_clean_string_column P col df :
  appends (clean_string_column P col df).
Proof.
  unfold clean_string_column.
  destruct (has_column col df); [|apply appends_ret].
  destruct (positions col df) as [|j [|j2 js]]; try apply appends_raise.
  destruct (replaced_dtype P _); first [apply appends_ret|apply appends_raise].
Qed.

Lemma appends_for_each step cols :
  (forall c df, appends (step c df)) ->
  forall df, appends (for_each step cols df).
Proof.
  intros Hs. induction cols as [|c cols IH]; intros df; simpl.
  - apply appends_ret.
  - apply appends_bind; auto.
Qed.

Lemma appends_In {A} (m : M A) l r l' x :
  appends m -> m l = (r, l') -> In x l -> In x l'.
Proof.
  intros Hm E Hx. destruct (Hm l) as [t Ht]. rewrite E in Ht. simpl in Ht.
  subst l'. apply in_or_app. now left.
Qed.

(** Splitting a successful sequence. *)
Lemma bind_ok {A B} (m : M A) (k : A -> M B) l b l' :
  bind m k l = (Ok b, l') ->
  exists a l1, m l = (Ok a, l1) /\ k a l1 = (Ok b, l').
Proof.
  unfold bind. destruct (m l) as [[a|e] l1]; intros H; [|discriminate].
  now exists a, l1.
Qed.

(** ** Loops over columns *)

Section ForEach.

Variable step : string -> DataFrame -> M DataFrame.
Variable F : list cell -> list cell.
Variable Q : string -> list cell -> list log_record -> Prop.

Hypothesis Q_grows : forall c s l t, Q c s l -> Q c s (l ++ t).
Hypothesis step_appends : forall c df, appends (step c df).
Hypothesis step_frame :
  forall c df l df' l',
    step c df l = (Ok df', l') ->
    labels df' = labels df /\ len df' = len df
    /\ (forall j, nth_error (labels df) j <> Some c ->
                  series j df' = series j df).
Hypothesis step_column :
  forall c df l df' l' j,
    step c df l = (Ok df', l') ->
    positions c df = [j] ->
    series j df' = F (series j df) /\ Q c (series j df) l'.

Hypothesis step_unique :
  forall c df l df' l',
    step c df l = (Ok df', l') ->
    has_column c df = true ->
    exists j, positions c df = [j].

(** The loop keeps the header and the number of rows, and every column
    whose label is not among the ones it handles. *)
Lemma for_each_frame cols :
  forall df l df' l',
    for_each step cols df l = (Ok df', l') ->
    labels df' = labels df /\ len df' = len df
    /\ (forall j, (forall c, In c cols -> nth_error (labels df) j <> Some c) ->
                  series j df' = series j df).
Proof.
  induction cols as [|c0 cols IH]; intros df l df' l' H; simpl in H.
  - inversion H; subst. auto.
  - apply bind_ok in H. destruct H as [df1 [l1 [H1 H2]]].
    apply step_frame in H1. destruct H1 as [Hl [Hn Hs]].
    apply IH in H2. destruct H2 as [Hl' [Hn' Hs']].
    repeat split; try congruence.
    intros j Hj. rewrite Hs'.
    + apply Hs. apply Hj. now left.
    + intros c Hc. rewrite Hl. apply Hj. now right.
Qed.

(** A column handled by the loop is transformed once, by its own step. *)
Lemma for_each_column cols :
  NoDup cols ->
  forall df l df' l' c j,
    for_each step cols df l = (Ok df', l') ->
    In c cols ->
    positions c df = [j] ->
    series j df' = F (series j df) /\ Q c (series j df) l'.
Proof.
  induction cols as [|c0 cols IH]; intros ND df l df' l' c j H Hc Hp;
    simpl in H; [contradiction|].
  inversion ND as [|? ? Hnotin ND']; subst.
  apply bind_ok in H. destruct H as [df1 [l1 [H1 H2]]].
  pose proof (positions_unique_label _ _ _ Hp) as Hlab.
  destruct Hc as [->|Hc].
  - destruct (step_column _ _ _ _ _ _ H1 Hp) as [Hs HQ].
    apply step_frame in H1. destruct H1 as [Hl [Hn _]].
    pose proof (for_each_frame _ _ _ _ _ H2) as [_ [_ Hs']].
    split.
    + rewrite Hs'; [exact Hs|].
      intros c' Hc'. rewrite Hl, Hlab. intros E. inversion E; subst.
      contradiction.
    + destruct (appends_for_each step cols step_appends df1 l1) as [t Ht].
      rewrite H2 in Ht. simpl in Ht. subst l'. now apply Q_grows.
  - assert (NE : c <> c0) by (intros ->; contradiction).
    apply step_frame in H1. destruct H1 as [Hl [Hn Hs]].
    assert (Hp1 : positions c df1 = [j]).
    { rewrite (positions_labels c df df1) by exact Hl. exact Hp. }
    destruct (IH ND' _ _ _ _ _ _ H2 Hc Hp1) as [Hs1 HQ1].
    assert (Hsame : series j df1 = series j df).
    { apply Hs. rewrite Hlab. congruence. }
    rewrite Hsame in Hs1, HQ1. auto.
Qed.

(** A label the loop handles names one column at most, or the loop
    raises. *)
Lemma for_each_unique cols :
  forall df l df' l' c,
    for_each step cols df l = (Ok df', l') ->
    In c cols ->
    has_column c df = true ->
    exists j, positions c df = [j].
Proof.
  induction cols as [|c0 cols IH]; intros df l df' l' c H Hc Hh;
    simpl in H; [contradiction|].
  apply bind_ok in H. destruct H as [df1 [l1 [H1 H2]]].
  destruct Hc as [->|Hc].
  - eapply step_unique; eauto.
  - apply step_frame in H1. destruct H1 as [Hl _].
    rewrite <- (positions_labels c df df1) by exact Hl.
    eapply IH; eauto.
    now rewrite (has_column_labels c df df1) by exact Hl.
Qed.

End ForEach.

(** ** The steps of the cleaner *)

Lemma all_null_in_range cs :
  any (map notna cs) = false ->
  any (map too_old cs) = false /\ any (map too_new cs) = false.
Proof.
  induction cs as [|c cs IH]; simpl; auto.
  intros H. apply orb_false_iff in H. destruct H as [Hc H].
  destruct c; try discriminate. simpl. auto.
Qed.

Lemma clamp_dates_ok col j df l :
  exists t,
    clamp_dates col j df l
    = (Ok (null_out (map too_new (series j df)) j
             (null_out (map too_old (series j df)) j df)),
       l ++ t).
Proof.
  unfold clamp_dates, null_out.
  destruct (any (map notna (series j df))) eqn:En.
  - unfold bind.
    destruct (any (map too_old (series j df))) eqn:Eo;
      destruct (any (map too_new (series j df))) eqn:Ew; simpl;
      rewrite ?(assign_where_none _ _ _ _ Eo);
      rewrite ?(assign_where_none _ _ _ _ Ew);
      eexists; rewrite <- ?app_assoc; try reflexivity.
    now rewrite app_nil_r.
  - apply all_null_in_range in En. destruct En as [Eo Ew].
    rewrite (assign_where_none _ _ _ _ Eo), (assign_where_none _ _ _ _ Ew).
    exists []. simpl. now rewrite app_nil_r.
Qed.

Lemma series_clamped j df :
  series j (null_out (map too_new (series j df)) j
              (null_out (map too_old (series j df)) j df))
  = map clamp_cell (series j df).
Proof.
  unfold series, null_out, assign_where. simpl. generalize (rows df) as rs.
  induction rs as [|r rs IH]; simpl; auto.
  rewrite IH. f_equal. unfold clamp_cell.
  destruct (too_old (cell_at j r)), (too_new (cell_at j r)); simpl;
    rewrite ?cell_at_put_same; reflexivity.
Qed.

Lemma series_clamped_other j j' df :
  j <> j' ->
  series j' (null_out (map too_new (series j df)) j
               (null_out (map too_old (series j df)) j df))
  = series j' df.
Proof.
  intros H. unfold null_out.
  now rewrite !series_assign_where_other by exact H.
Qed.

Lemma has_column_unique col df j :
  positions col df = [j] -> has_column col df = true.
Proof.
  intros H. destruct (has_column col df) eqn:E; auto.
  apply has_column_positions in E. congruence.
Qed.

Lemma logger_ok lv msg l u l' :
  logger lv msg l = (Ok u, l') -> l' = l ++ [(lv, msg)].
Proof. unfold logger. intros H. now inversion H. Qed.

Lemma ret_ok {A} (a b : A) l l' : ret a l = (Ok b, l') -> b = a /\ l' = l.
Proof. unfold ret. intros H. now inversion H. Qed.

Lemma distinct_positions c1 c2 df j1 j2 :
  c1 <> c2 ->
  nth_error (labels df) j1 = Some c1 ->
  nth_error (labels df) j2 = Some c2 ->
  j1 <> j2.
Proof. intros NE H1 H2 ->. congruence. Qed.

(** *** Dates *)

Lemma clean_date_column_cases P c df l df' l' :
  clean_date_column P c df l = (Ok df', l') ->
  (has_column c df = false /\ df' = df /\ l' = l)
  \/ exists j, positions c df = [j].
Proof.
  unfold clean_date_column. destruct (has_column c df).
  - intros H. right. apply bind_ok in H. destruct H as [u [l1 [_ H]]].
    destruct (positions c df) as [|j [|j2 js]]; try discriminate.
    now exists j.
  - intros H. apply ret_ok in H. left. tauto.
Qed.

Lemma clean_date_column_at P c df l df' l' j :
  clean_date_column P c df l = (Ok df', l') ->
  positions c df = [j] ->
  let dfa := assign j datetime64 (map ts_cell (to_datetime P (series j df))) df in
  df' = null_out (map too_new (series j dfa)) j
          (null_out (map too_old (series j dfa)) j dfa)
  /\ In (INFO, DatesConverted c (sum (map isna (series j dfa)))
                 (sum (map isna (series j df')))) l'.
Proof.
  intros H Hp dfa. unfold clean_date_column in H.
  rewrite (has_column_unique _ _ _ Hp), Hp in H.
  apply bind_ok in H. destruct H as [u [l1 [_ H]]].
  apply bind_ok in H. destruct H as [dfc [l2 [Hc H]]].
  apply bind_ok in H. destruct H as [u' [l3 [Hl H]]].
  apply ret_ok in H. destruct H as [-> ->].
  apply logger_ok in Hl. subst l3.
  fold dfa in Hc. destruct (clamp_dates_ok c j dfa l1) as [t Ht].
  rewrite Ht in Hc. inversion Hc; subst. split; [reflexivity|].
  apply in_or_app. right. now left.
Qed.

Lemma clean_date_column_frame P c df l df' l' :
  clean_date_column P c df l = (Ok df', l') ->
  labels df' = labels df /\ len df' = len df
  /\ (forall j, nth_error (labels df) j <> Some c -> series j df' = series j df).
Proof.
  intros H. destruct (clean_date_column_cases _ _ _ _ _ _ H)
    as [[_ [-> _]]|[j Hp]]; [auto|].
  destruct (clean_date_column_at _ _ _ _ _ _ _ H Hp) as [-> _].
  unfold null_out. repeat split.
  - rewrite !labels_assign_where. apply labels_assign.
  - rewrite !len_assign_where. apply len_assign.
  - intros j' Hj'.
    assert (NE : j <> j').
    { intros <-. apply Hj'. now apply positions_unique_label. }
    rewrite !series_assign_where_other by exact NE.
    now apply series_assign_other.
Qed.

Lemma clean_date_column_column P c df l df' l' j :
  clean_date_column P c df l = (Ok df', l') ->
  positions c df = [j] ->
  series j df' = map clamp_cell (map ts_cell (to_datetime P (series j df)))
  /\ In (INFO, DatesConverted c
                 (sum (map isna (map ts_cell (to_datetime P (series j df)))))
                 (sum (map isna (map clamp_cell
                                   (map ts_cell (to_datetime P (series j df)))))))
        l'.
Proof.
  intros H Hp.
  destruct (clean_date_column_at _ _ _ _ _ _ _ H Hp) as [E Hin].
  assert (Ha : series j (assign j datetime64
                           (map ts_cell (to_datetime P (series j df))) df)
               = map ts_cell (to_datetime P (series j df))).
  { apply series_assign_same.
    now rewrite length_map, to_datetime_length, series_length. }
  assert (Hs : series j df'
               = map clamp_cell (map ts_cell (to_datetime P (series j df)))).
  { rewrite E, series_clamped, Ha. reflexivity. }
  split; [exact Hs|]. rewrite Hs, Ha in Hin. exact Hin.
Qed.

(** *** Numbers *)

Lemma clean_numeric_column_frame P c df l df' l' :
  clean_numeric_column P c df l = (Ok df', l') ->
  labels df' = labels df /\ len df' = len df
  /\ (forall j, nth_error (labels df) j <> Some c -> series j df' = series j df).
Proof.
  unfold clean_numeric_column. destruct (has_column c df).
  - destruct (positions c df) as [|j [|j2 js]] eqn:Hp; try discriminate.
    intros H. apply bind_ok in H. destruct H as [u [l1 [_ H]]].
    apply ret_ok in H. destruct H as [-> _]. repeat split.
    + apply labels_assign.
    + apply len_assign.
    + intros j' Hj'. apply series_assign_other.
      intros <-. apply Hj'. now apply positions_unique_label.
  - intros H. apply ret_ok in H. destruct H as [-> _]. auto.
Qed.

Lemma clean_numeric_column_column P c df l df' l' j :
  clean_numeric_column P c df l = (Ok df', l') ->
  positions c df = [j] ->
  series j df' = map num_cell (to_numeric P (series j df)) /\ True.
Proof.
  intros H Hp. unfold clean_numeric_column in H.
  rewrite (has_column_unique _ _ _ Hp), Hp in H.
  apply bind_ok in H. destruct H as [u [l1 [_ H]]].
  apply ret_ok in H. destruct H as [-> _]. split; [|exact I].
  apply series_assign_same.
  now rewrite length_map, to_numeric_length, series_length.
Qed.

(** *** Text *)

Lemma clean_string_column_frame P c df l df' l' :
  clean_string_column P c df l = (Ok df', l') ->
  labels df' = labels df /\ len df' = len df
  /\ (forall j, nth_error (labels df) j <> Some c -> series j df' = series j df).
Proof.
  unfold clean_string_column. destruct (has_column c df).
  - destruct (positions c df) as [|j [|j2 js]] eqn:Hp; try discriminate.
    destruct (replaced_dtype P _); try discriminate.
    intros H. apply ret_ok in H. destruct H as [-> _]. repeat split.
    + rewrite !labels_assign. reflexivity.
    + rewrite !len_assign. reflexivity.
    + intros j' Hj'.
      assert (NE : j <> j').
      { intros <-. apply Hj'. now apply positions_unique_label. }
      now rewrite !series_assign_other by exact NE.
  - intros H. apply ret_ok in H. destruct H as [-> _]. auto.
Qed.

Lemma clean_string_column_column P c df l df' l' j :
  clean_string_column P c df l = (Ok df', l') ->
  positions c df = [j] ->
  series j df' = map (clean_text P) (series j df) /\ True.
Proof.
  intros H Hp. unfold clean_string_column in H.
  rewrite (has_column_unique _ _ _ Hp), Hp in H.
  destruct (replaced_dtype P _) eqn:Ed; try discriminate.
  apply ret_ok in H. destruct H as [-> _]. split; [|exact I].
  set (df1 := assign j object_ (map (astype_str P) (series j df)) df).
  set (df2 := assign j object_ (map replace_nan (series j df1)) df1).
  assert (H1 : series j df1 = map (astype_str P) (series j df)).
  { apply series_assign_same. now rewrite length_map, series_length. }
  assert (H2 : series j df2 = map replace_nan (series j df1)).
  { apply series_assign_same. now rewrite length_map, series_length. }
  rewrite series_assign_same by now rewrite length_map, series_length.
  rewrite H2, H1, !map_map. reflexivity.
Qed.

Lemma clean_string_column_unique P c df l df' l' :
  clean_string_column P c df l = (Ok df', l') ->
  has_column c df = true ->
  exists j, positions c df = [j].
Proof.
  unfold clean_string_column. intros H Hh. rewrite Hh in H.
  destruct (positions c df) as [|j [|j2 js]]; try discriminate. now exists j.
Qed.

Lemma clean_numeric_column_unique P c df l df' l' :
  clean_numeric_column P c df l = (Ok df', l') ->
  has_column c df = true ->
  exists j, positions c df = [j].
Proof.
  unfold clean_numeric_column. intros H Hh. rewrite Hh in H.
  destruct (positions c df) as [|j [|j2 js]]; try discriminate. now exists j.
Qed.

Lemma clean_date_column_unique P c df l df' l' :
  clean_date_column P c df l = (Ok df', l') ->
  has_column c df = true ->
  exists j, positions c df = [j].
Proof.
  intros H Hh. destruct (clean_date_column_cases _ _ _ _ _ _ H)
    as [[E _]|?]; [congruence|assumption].
Qed.

(** ** The cleaner as a whole *)

Lemma cleaner_stages P df l out l' :
  clean_and_transform_data P df l = (Ok out, l') ->
  exists l0 df1 l1 df2 l2 l3,
    for_each (clean_date_column P) date_columns (rename df) l0 = (Ok df1, l1)
    /\ for_each (clean_numeric_column P) numeric_columns df1 l1 = (Ok df2, l2)
    /\ for_each (clean_string_column P) string_columns df2 l2 = (Ok out, l3)
    /\ l' = l3 ++ [(INFO, CleaningCompleted)].
Proof.
  unfold clean_and_transform_data. intros H.
  apply bind_ok in H. destruct H as [u0 [la [_ H]]].
  apply bind_ok in H. destruct H as [u1 [l0 [_ H]]].
  apply bind_ok in H. destruct H as [df1 [l1 [H1 H]]].
  apply bind_ok in H. destruct H as [df2 [l2 [H2 H]]].
  apply bind_ok in H. destruct H as [df3 [l3 [H3 H]]].
  apply bind_ok in H. destruct H as [u2 [l4 [Hl H]]].
  apply ret_ok in H. destruct H as [-> ->].
  apply logger_ok in Hl.
  exists l0, df1, l1, df2, l2, l3. auto.
Qed.

Lemma date_columns_NoDup : NoDup date_columns.
Proof. repeat constructor; simpl; intuition discriminate. Qed.

Lemma string_columns_NoDup : NoDup string_columns.
Proof. repeat constructor; simpl; intuition discriminate. Qed.

Lemma date_not_numeric c : In c date_columns -> ~ In c numeric_columns.
Proof. simpl. intuition (subst; discriminate). Qed.

Lemma date_not_string c : In c date_columns -> ~ In c string_columns.
Proof. simpl. intuition (subst; discriminate). Qed.

Lemma string_not_date c : In c string_columns -> ~ In c date_columns.
Proof. simpl. intuition (subst; discriminate). Qed.

Lemma string_not_numeric c : In c string_columns -> ~ In c numeric_columns.
Proof. simpl. intuition (subst; discriminate). Qed.

(** A column whose label no loop of a kind handles goes through it. *)
Lemma untouched cols (df : DataFrame) j c :
  nth_error (labels df) j = Some c ->
  ~ In c cols ->
  forall c', In c' cols -> nth_error (labels df) j <> Some c'.
Proof. intros Hl Hn c' Hc' E. rewrite Hl in E. inversion E; subst. auto. Qed.

Lemma cleaner_frame P df l out l' :
  clean_and_transform_data P df l = (Ok out, l') ->
  labels out = labels (rename df) /\ len out = len df.
Proof.
  intros H. apply cleaner_stages in H.
  destruct H as [l0 [df1 [l1 [df2 [l2 [l3 [H1 [H2 [H3 _]]]]]]]]].
  apply (for_each_frame _ (clean_date_column_frame P)) in H1.
  apply (for_each_frame _ (clean_numeric_column_frame P)) in H2.
  apply (for_each_frame _ (clean_string_column_frame P)) in H3.
  destruct H1 as [A1 [B1 _]], H2 as [A2 [B2 _]], H3 as [A3 [B3 _]].
  split; [congruence|]. rewrite B3, B2, B1. reflexivity.
Qed.

(** ** The date-range clamp *)

Lemma before_min_is_too_old t :
  date_before (date_of t) (1753, 1, 1)%Z -> too_old (Ts t) = true.
Proof.
  unfold date_before, date_of, date_compare, too_old, ts_ltb, ts_compare.
  simpl.
  destruct (ts_year t ?= 1753)%Z; try discriminate; auto.
  destruct (ts_month t ?= 1)%Z; try discriminate; auto.
  intros ->. reflexivity.
Qed.

Lemma after_max_is_too_new t :
  date_after (date_of t) (9999, 12, 31)%Z -> too_new (Ts t) = true.
Proof.
  unfold date_after, date_of, date_compare, too_new, ts_gtb, ts_compare.
  simpl.
  destruct (ts_year t ?= 9999)%Z; try discriminate; auto.
  destruct (ts_month t ?= 12)%Z; try discriminate; auto.
  intros ->. reflexivity.
Qed.

Lemma clamp_cell_kept c : clamp_cell c <> NaN -> clamp_cell c = c.
Proof. unfold clamp_cell. destruct (too_old c || too_new c); congruence. Qed.

(** C6, as the code has it.  For each of FoundedAt, FirstFundingAt and
    LastFundingAt that the frame holds, the cleaner replaces the column by
    its conversion to timestamps and nulls every value before 1753-01-01
    or after 9999-12-31; in particular a value whose calendar date lies
    strictly before 1753-01-01 or strictly after 9999-12-31 is null in the
    output.  A value that is retained is the converted timestamp itself,
    time of day included: nothing is cut down to the calendar date.  The
    null counts before and after the range check are logged. *)
Theorem date_range_clamp_keeps_timestamps (P : Pandas) (df out : DataFrame)
    (l l' : list log_record) (col : string) (j : nat) :
  clean_and_transform_data P df l = (Ok out, l') ->
  In col date_columns ->
  positions col (rename df) = [j] ->
  series j out = map clamp_cell (map ts_cell (to_datetime P (series j df)))
  /\ (forall i t,
        nth_error (to_datetime P (series j df)) i = Some (Some t) ->
        date_before (date_of t) (1753, 1, 1)%Z
        \/ date_after (date_of t) (9999, 12, 31)%Z ->
        nth_error (series j out) i = Some NaN)
  /\ (forall i c,
        nth_error (series j out) i = Some c -> c <> NaN ->
        exists t, c = Ts t
                  /\ nth_error (to_datetime P (series j df)) i = Some (Some t))
  /\ In (INFO, DatesConverted col
                 (sum (map isna (map ts_cell (to_datetime P (series j df)))))
                 (sum (map isna (series j out)))) l'.
Proof.
  intros H Hc Hp.
  apply cleaner_stages in H.
  destruct H as [l0 [df1 [l1 [df2 [l2 [l3 [H1 [H2 [H3 ->]]]]]]]]].
  pose proof (positions_unique_label _ _ _ Hp) as Hlab.
  destruct (for_each_column (clean_date_column P)
              (fun s => map clamp_cell (map ts_cell (to_datetime P s)))
              (fun c s l =>
                 In (INFO, DatesConverted c
                       (sum (map isna (map ts_cell (to_datetime P s))))
                       (sum (map isna (map clamp_cell
                                         (map ts_cell (to_datetime P s))))))
                    l)
              (fun c s l t Hin => in_or_app l t _ (or_introl Hin))
              (appends_clean_date_column P)
              (clean_date_column_frame P)
              (clean_date_column_column P)
              date_columns date_columns_NoDup _ _ _ _ _ _ H1 Hc Hp)
    as [Hs HQ].
  change (series j (rename df)) with (series j df) in Hs, HQ.
  pose proof (for_each_frame _ (clean_date_column_frame P) _ _ _ _ _ H1)
    as [A1 _].
  pose proof (for_each_frame _ (clean_numeric_column_frame P) _ _ _ _ _ H2)
    as [A2 [_ S2]].
  pose proof (for_each_frame _ (clean_string_column_frame P) _ _ _ _ _ H3)
    as [A3 [_ S3]].
  assert (Hout : series j out
                 = map clamp_cell (map ts_cell (to_datetime P (series j df)))).
  { rewrite S3, S2; [exact Hs| |].
    - apply untouched with (c := col); [congruence|].
      now apply date_not_numeric.
    - apply untouched with (c := col); [congruence|].
      now apply date_not_string. }
  split; [exact Hout|]. split; [|split].
  - intros i t Hi Hrange.
    rewrite Hout, !nth_error_map, Hi. simpl. f_equal.
    unfold clamp_cell. destruct Hrange as [Hb|Ha].
    + now rewrite (before_min_is_too_old _ Hb).
    + rewrite (after_max_is_too_new _ Ha). now rewrite orb_true_r.
  - intros i c Hi Hc'.
    rewrite Hout, !nth_error_map in Hi.
    destruct (nth_error (to_datetime P (series j df)) i) as [o|];
      [|discriminate].
    simpl in Hi. inversion Hi as [E]. clear Hi.
    rewrite <- E in Hc'. pose proof (clamp_cell_kept _ Hc') as Hk.
    destruct o as [t|]; simpl in *.
    + exists t. split; [congruence|reflexivity].
    + now contradiction Hc'.
  - rewrite Hout.
    apply (appends_In _ _ _ _ _ (appends_logger INFO CleaningCompleted)
             (eq_refl : logger INFO CleaningCompleted l3 = (Ok tt, _))).
    eapply appends_In; [|exact H3|].
    { apply appends_for_each. apply appends_clean_string_column. }
    eapply appends_In; [|exact H2|].
    { apply appends_for_each. apply appends_clean_numeric_column. }
    exact HQ.
Qed.

(** ** The validator *)

Lemma dropna_ok col df l dfd l' :
  dropna col df l = (Ok dfd, l') ->
  positions col df <> []
  /\ dfd = {| columns := columns df;
              rows := filter (fun r => forallb (fun j => notna (cell_at j r))
                                               (positions col df))
                             (rows df) |}
  /\ l' = l.
Proof.
  unfold dropna. destruct (positions col df) as [|j js]; [discriminate|].
  intros H. apply ret_ok in H. destruct H as [-> ->].
  repeat split. discriminate.
Qed.

Lemma truncate_names_series cs :
  map (fun c => if longer_than Config.max_name_length c
                then str_slice Config.max_name_length c else c) cs
  = map truncate_name cs.
Proof. reflexivity. Qed.

Lemma no_long_names cs :
  any (map (longer_than Config.max_name_length) cs) = false ->
  map truncate_name cs = cs.
Proof.
  induction cs as [|c cs IH]; simpl; auto.
  intros H. apply orb_false_iff in H. destruct H as [Hc H].
  unfold truncate_name at 1. rewrite Hc. f_equal. now apply IH.
Qed.

Lemma validate_names_ok df l df' l' :
  validate_names df l = (Ok df', l') ->
  has_column "name" df = true ->
  exists j,
    positions "name" df = [j]
    /\ labels df' = labels df /\ len df' = len df
    /\ series j df' = map truncate_name (series j df)
    /\ appends (validate_names df).
Proof.
  unfold validate_names at 1. intros H Hh. rewrite Hh in H.
  apply bind_ok in H. destruct H as [j [l1 [Ha H]]].
  assert (Hp : positions "name" df = [j]).
  { unfold str_accessor in Ha.
    destruct (positions "name" df) as [|j0 [|j2 js]]; try discriminate.
    destruct (dtype_at j0 df); try discriminate.
    apply ret_ok in Ha. destruct Ha as [-> _]. reflexivity. }
  exists j. split; [exact Hp|].
  destruct (any (map (longer_than Config.max_name_length) (series j df))) eqn:E.
  - apply bind_ok in H. destruct H as [u [l2 [_ H]]].
    apply ret_ok in H. destruct H as [-> _].
    repeat split.
    + apply len_assign_where.
    + apply series_assign_where_same.
    + apply appends_validate_names.
  - apply ret_ok in H. destruct H as [-> _].
    repeat split.
    + symmetry. now apply no_long_names.
    + apply appends_validate_names.
Qed.

Lemma validate_funding_frame df l df' l' :
  validate_funding df l = (Ok df', l') ->
  labels df' = labels df /\ len df' = len df
  /\ (forall j, nth_error (labels df) j <> Some "funding_total_usd" ->
                series j df' = series j df).
Proof.
  unfold validate_funding. destruct (has_column "funding_total_usd" df).
  - destruct (positions "funding_total_usd" df) as [|j [|j2 js]] eqn:Hp;
      try discriminate.
    intros H. apply bind_ok in H. destruct H as [mask [l1 [_ H]]].
    destruct (any mask).
    + apply bind_ok in H. destruct H as [u [l2 [_ H]]].
      apply ret_ok in H. destruct H as [-> _]. repeat split.
      * apply len_assign_where.
      * intros j' Hj'. apply series_assign_where_other.
        intros <-. apply Hj'. now apply positions_unique_label.
    + apply ret_ok in H. destruct H as [-> _]. auto.
  - intros H. apply ret_ok in H. destruct H as [-> _]. auto.
Qed.

Lemma dropped_rows_series j rs :
  filter (fun r => forallb (fun j0 => notna (cell_at j0 r)) [j]) rs
  = filter (fun r => notna (cell_at j r)) rs.
Proof.
  apply filter_ext. intros r. simpl. apply andb_true_r.
Qed.

Lemma validate_data_kept df l df1 l1 :
  validate_data df l = (Ok df1, l1) ->
  exists j,
    positions "name" df = [j]
    /\ labels df1 = labels df
    /\ len df1 = List.length (filter (fun r => notna (cell_at j r)) (rows df))
    /\ series j df1
       = map (fun r => truncate_name (cell_at j r))
             (filter (fun r => notna (cell_at j r)) (rows df))
    /\ In (INFO, RemovedMissingNames
                   (len df - List.length
                               (filter (fun r => notna (cell_at j r)) (rows df))))
          l1.
Proof.
  unfold validate_data. intros H.
  apply bind_ok in H. destruct H as [u0 [l0 [_ H]]].
  apply bind_ok in H. destruct H as [dfd [la [Hd H]]].
  apply bind_ok in H. destruct H as [u1 [lb [Hl H]]].
  apply bind_ok in H. destruct H as [dfn [lc [Hn H]]].
  apply bind_ok in H. destruct H as [dff [ld [Hf H]]].
  apply bind_ok in H. destruct H as [u2 [le [Hl2 H]]].
  apply ret_ok in H. destruct H as [-> ->].
  apply dropna_ok in Hd. destruct Hd as [Hne [Ed ->]].
  apply logger_ok in Hl. apply logger_ok in Hl2.
  assert (Hlab : labels dfd = labels df) by (subst dfd; reflexivity).
  assert (Hh : has_column "name" dfd = true).
  { rewrite (has_column_labels _ _ _ Hlab).
    destruct (has_column "name" df) eqn:E; auto.
    apply has_column_positions in E. contradiction. }
  destruct (validate_names_ok _ _ _ _ Hn Hh) as [j [Hp [Ln [Nn [Sn An]]]]].
  rewrite (positions_labels _ _ _ Hlab) in Hp.
  pose proof (validate_funding_frame _ _ _ _ Hf) as [Lf [Nf Sf]].
  assert (Erows : rows dfd = filter (fun r => notna (cell_at j r)) (rows df)).
  { subst dfd. simpl. rewrite Hp. apply dropped_rows_series. }
  exists j. split; [exact Hp|]. split; [congruence|]. split; [|split].
  - rewrite Nf, Nn. unfold len. now rewrite Erows.
  - rewrite Sf.
    + rewrite Sn. unfold series. rewrite Erows, map_map. reflexivity.
    + rewrite Ln, Hlab, (positions_unique_label _ _ _ Hp). discriminate.
  - subst le. apply in_or_app. left.
    eapply appends_In; [apply appends_validate_funding|exact Hf|].
    eapply appends_In; [exact An|exact Hn|].
    subst lb. apply in_or_app. right. left.
    unfold len at 2. now rewrite Erows.
Qed.

Lemma appends_clean_and_transform_data P df :
  appends (clean_and_transform_data P df).
Proof.
  unfold clean_and_transform_data.
  repeat first
    [ apply appends_for_each;
      first [ apply appends_clean_date_column
            | apply appends_clean_numeric_column
            | apply appends_clean_string_column ]
    | appends_step ].
Qed.

Lemma label_has_column c df j :
  nth_error (labels df) j = Some c -> has_column c df = true.
Proof.
  intros H. destruct (has_column c df) eqn:E; auto.
  apply has_column_positions in E.
  apply positions_label in H. rewrite E in H. contradiction.
Qed.

Lemma substring_prefix_length n s :
  n <= String.length s -> String.length (substring 0 n s) = n.
Proof.
  revert s. induction n as [|n IH]; intros [|c s] H; simpl in *; auto; try lia.
  f_equal. apply IH. lia.
Qed.

(** What the pipeline makes of a name that is a text other than the
    literal "nan": the text, cut at 255 characters when longer, without
    the whitespace around it.  It is never null; it is empty when the name
    is blank. *)
Lemma clean_name_text P s :
  s <> "nan" ->
  clean_text P (truncate_name (Str s))
  = Str (strip (if Config.max_name_length <? String.length s
                then substring 0 Config.max_name_length s else s)).
Proof.
  intros Hs. unfold truncate_name, longer_than, clean_text. simpl str_len.
  cbv iota.
  destruct (Config.max_name_length <? String.length s) eqn:E; simpl.
  - apply Nat.ltb_lt in E.
    destruct (String.eqb (substring 0 Config.max_name_length s) "nan") eqn:En;
      [|reflexivity].
    apply String.eqb_eq in En.
    assert (Hl : String.length (substring 0 Config.max_name_length s)
                 = Config.max_name_length)
      by (apply substring_prefix_length; lia).
    rewrite En in Hl. discriminate.
  - destruct (String.eqb s "nan") eqn:En; [|reflexivity].
    apply String.eqb_eq in En. contradiction.
Qed.

(** C3, as the code has it.  Every record whose name is null in the loaded
    table is dropped, and the number dropped is logged; the records that
    remain are the others, in order.  The Name of a surviving record is
    its name cut at 255 characters and stripped of surrounding whitespace:
    it is not null unless the name is the literal text "nan", and it is
    the empty text when the name is blank, for blank names are neither
    null nor dropped. *)
Theorem null_names_dropped_blank_names_kept (P : Pandas)
    (df df1 out : DataFrame) (l l1 l2 : list log_record) :
  validate_data df l = (Ok df1, l1) ->
  clean_and_transform_data P df1 l1 = (Ok out, l2) ->
  exists j,
    positions "name" df = [j]
    /\ positions "Name" out = [j]
    /\ In (INFO, RemovedMissingNames
                   (len df - List.length
                               (filter (fun r => notna (cell_at j r)) (rows df))))
          l2
    /\ len out = List.length (filter (fun r => notna (cell_at j r)) (rows df))
    /\ series j out
       = map (fun r => clean_text P (truncate_name (cell_at j r)))
             (filter (fun r => notna (cell_at j r)) (rows df))
    /\ (forall s, s <> "nan" ->
          clean_text P (truncate_name (Str s))
          = Str (strip (if Config.max_name_length <? String.length s
                        then substring 0 Config.max_name_length s else s))).
Proof.
  intros Hv Hc.
  destruct (validate_data_kept _ _ _ _ Hv) as [j [Hp [Hl [Hn [Hs Hin]]]]].
  exists j.
  pose proof (cleaner_frame _ _ _ _ _ Hc) as [Lout Nout].
  pose proof (appends_In _ _ _ _ _ (appends_clean_and_transform_data P df1)
                Hc Hin) as Hin2.
  apply cleaner_stages in Hc.
  destruct Hc as [l0 [dfa [la [dfb [lb [lc [H1 [H2 [H3 ->]]]]]]]]].
  pose proof (for_each_frame _ (clean_date_column_frame P) _ _ _ _ _ H1)
    as [A1 [_ S1]].
  pose proof (for_each_frame _ (clean_numeric_column_frame P) _ _ _ _ _ H2)
    as [A2 [_ S2]].
  pose proof (for_each_frame _ (clean_string_column_frame P) _ _ _ _ _ H3)
    as [A3 _].
  assert (Hname : nth_error (labels (rename df1)) j = Some "Name").
  { rewrite labels_rename, nth_error_map, Hl.
    now rewrite (positions_unique_label _ _ _ Hp). }
  assert (Hb : nth_error (labels dfb) j = Some "Name") by congruence.
  assert (Hin_s : In "Name" string_columns) by (simpl; auto).
  destruct (for_each_unique _ (clean_string_column_frame P)
              (clean_string_column_unique P) _ _ _ _ _ "Name" H3 Hin_s
              (label_has_column _ _ _ Hb)) as [j' Hj'].
  assert (j' = j).
  { apply positions_label in Hb. rewrite Hj' in Hb.
    destruct Hb as [->|[]]. reflexivity. }
  subst j'.
  destruct (for_each_column (clean_string_column P)
              (map (clean_text P)) (fun _ _ _ => True)
              (fun _ _ _ _ _ => I)
              (appends_clean_string_column P)
              (clean_string_column_frame P)
              (clean_string_column_column P)
              string_columns string_columns_NoDup _ _ _ _ _ _ H3 Hin_s Hj')
    as [Hs3 _].
  split; [exact Hp|]. split; [|split; [exact Hin2|split; [|split]]].
  - rewrite (positions_labels "Name" dfb out) by exact A3. exact Hj'.
  - now rewrite Nout.
  - rewrite Hs3, S2, S1.
    + change (series j (rename df1)) with (series j df1).
      rewrite Hs, map_map. reflexivity.
    + apply untouched with (c := "Name"); [exact Hname|].
      now apply string_not_date.
    + apply untouched with (c := "Name"); [congruence|].
      now apply string_not_numeric.
  - intros s. apply clean_name_text.
Qed.

(** ** No line of the report before the report step *)














Section DriverAfterVerification.

Context {D : Destination}.
Variable cfg : Config.migration_config.





End DriverAfterVerification.

(* ===================================================================== *)
(** * The pipeline on the example runs *)
(* ===================================================================== *)

Import Examples.

Ltac in_log := simpl; repeat (first [left; reflexivity | right]).
Ltac conjuncts := repeat match goal with |- _ /\ _ => split end.

(** ** The writer *)

Lemma chunked_writer_partitions_witness :
  0 < Config.chunksize two_row_chunks
  /\ exists bs,
       batches two_row_chunks (cleaned five_companies) = Ok bs
       /\ List.length bs = 3
       /\ List.concat (map rows bs) = rows (cleaned five_companies)
       /\ fst (fst (migrate_data_to_sql (D:=SqlTable.destination)
                      two_row_chunks (cleaned five_companies)
                      (fresh 10 true) [])) = true
       /\ SqlTable.table
            (dest (snd (fst (migrate_data_to_sql (D:=SqlTable.destination)
                               two_row_chunks (cleaned five_companies)
                               (fresh 10 true) []))))
          = table_of (cleaned five_companies)
       /\ map snd
            (issued (snd (fst (migrate_data_to_sql (D:=SqlTable.destination)
                                 two_row_chunks (cleaned five_companies)
                                 (fresh 10 true) []))))
          = bs.
Proof.
  split; [simpl; lia|].
  destruct (chunked_writer_partitions (D:=SqlTable.destination)
              two_row_chunks (cleaned five_companies))
    as [bs [H1 [H2 [_ [H4 [_ [_ [_ [_ [_ H10]]]]]]]]]]; [simpl; lia|].
  exists bs. split; [exact H1|].
  split; [rewrite H2; vm_compute; reflexivity|]. split; [exact H4|].
  assert (Hbs : bs = [iloc 0 2 (cleaned five_companies);
                      iloc 2 4 (cleaned five_companies);
                      iloc 4 5 (cleaned five_companies)]).
  { vm_compute in H1. injection H1 as H1. rewrite <- H1.
    vm_compute. reflexivity. }
  edestruct (H10 (fresh 10 true)) as [Ha [Hb Hc]].
  - rewrite Hbs. vm_compute. reflexivity.
  - split; [apply Ha|]. split; [|apply Hc].
    rewrite Hb. vm_compute. reflexivity.
Defined.

(** The table that is there holds one company; the run replaces it by
    the first batch and adds the two others. *)
Lemma first_batch_decides_mode_witness :
  fst (fst (migrate_data_to_sql (D:=SqlTable.destination) one_row_chunks
              (cleaned three_companies) populated [])) = true
  /\ map fst (issued (snd (fst (migrate_data_to_sql
                                  (D:=SqlTable.destination) one_row_chunks
                                  (cleaned three_companies) populated []))))
     = [Config.replace; Config.append; Config.append]
  /\ SqlTable.table
       (dest (snd (fst (migrate_data_to_sql (D:=SqlTable.destination)
                          one_row_chunks (cleaned three_companies)
                          populated []))))
     = table_of (cleaned three_companies).
Proof.
  destruct (first_batch_decides_mode (D:=SqlTable.destination)
              one_row_chunks (cleaned three_companies) populated [])
    as [_ [_ [_ [_ H5]]]].
  edestruct H5 as [Ha Hb].
  - vm_compute. reflexivity.
  - vm_compute. reflexivity.
  - split; [exact Ha|]. rewrite Hb. split; vm_compute; reflexivity.
Defined.

Lemma empty_frame_writes_nothing_witness :
  len no_companies = 0
  /\ 0 < Config.chunksize Config.MIGRATION_CONFIG
  /\ migrate_data_to_sql (D:=SqlTable.destination) Config.MIGRATION_CONFIG
       no_companies populated []
     = (true, mkWriter (D:=SqlTable.destination) populated [],
        [(INFO, MigrationStarted 0); (INFO, MigrationCompleted)]).
Proof.
  split; [reflexivity|]. split; [apply Nat.lt_0_succ|].
  apply (empty_frame_writes_nothing (D:=SqlTable.destination)
           Config.MIGRATION_CONFIG no_companies populated []).
  - reflexivity.
  - apply Nat.lt_0_succ.
Defined.

Lemma batch_failure_aborts_without_rollback_witness :
  let run := main one_row_chunks pandas
               (world three_companies (fresh 1 true) true) in
  success run = false
  /\ dest (final run) = first_written
  /\ List.length (issued (final run)) = 2.
Proof.
  destruct (batch_failure_aborts_without_rollback (D:=SqlTable.destination)
              one_row_chunks pandas
              (world three_companies (fresh 1 true) true)
              (cleaned three_companies)
              (prepared_log three_companies)
              [iloc 0 1 (cleaned three_companies)]
              (iloc 1 2 (cleaned three_companies))
              [iloc 2 3 (cleaned three_companies)]
              first_written first_written OSError)
    as [_ [H1 [H2 H3]]].
  - vm_compute. reflexivity.
  - vm_compute. reflexivity.
  - vm_compute. reflexivity.
  - vm_compute. reflexivity.
  - cbv zeta. split; [exact H1|]. split; [exact H2|].
    rewrite H3. reflexivity.
Defined.

(** ** The driver *)



(** Every batch of the run is written and verified, the report file cannot
    be written, and [main] returns False. *)
Lemma report_failure_counterexample :
  let run := main one_row_chunks pandas
               (world companies (fresh 10 true) false) in
  In (INFO, MigrationCompleted) (run_log run)
  /\ In (INFO, Verified) (run_log run)
  /\ In (ERROR, RunFailed OSError) (run_log run)
  /\ success run = false.
Proof.
  cbv zeta. split; [vm_compute; in_log|]. split; [vm_compute; in_log|].
  split; [vm_compute; in_log|]. vm_compute. reflexivity.
Defined.

Lemma report_failure_fails_run_witness :
  let run := main one_row_chunks pandas
               (world companies (fresh 10 true) false) in
  success run = false
  /\ SqlTable.table (dest (final run)) = table_of (cleaned companies).
Proof.
  cbv zeta.
  destruct (report_failure_fails_run (D:=SqlTable.destination)
              one_row_chunks pandas
              (world companies (fresh 10 true) false)
              (cleaned companies) (prepared_log companies)
              (snd (written one_row_chunks companies (fresh 10 true)))
              (snd (generate_summary_report false (cleaned companies)
                      (snd (verify_migration (D:=SqlTable.destination)
                              (dest (snd (fst (written one_row_chunks companies
                                                 (fresh 10 true)))))
                              (snd (written one_row_chunks companies
                                      (fresh 10 true)))))))
              (snd (fst (written one_row_chunks companies (fresh 10 true))))
              OSError)
    as [H1 [H2 _]].
  - vm_compute. reflexivity.
  - vm_compute. reflexivity.
  - vm_compute. reflexivity.
  - vm_compute. reflexivity.
  - split; [exact H1|]. rewrite H2. vm_compute. reflexivity.
Defined.

(** ** Names *)

(** The company whose name is three spaces reaches the destination, with
    the empty text for Name. *)
Lemma blank_name_survives_counterexample :
  let run := main one_row_chunks pandas
               (world companies (fresh 10 true) true) in
  success run = true
  /\ positions "Name" (cleaned companies) = [0]
  /\ map snd (issued (final run))
     = [iloc 0 1 (cleaned companies); iloc 1 2 (cleaned companies)]
  /\ series 0 (iloc 1 2 (cleaned companies)) = [Str ""]
  /\ SqlTable.table (dest (final run)) = table_of (cleaned companies)
  /\ map (cell_at 0) (rows (cleaned companies)) = [Str "Acme"; Str ""].
Proof.
  cbv zeta. conjuncts; vm_compute; reflexivity.
Defined.

Lemma null_names_dropped_blank_names_kept_witness :
  exists j,
    positions "name" companies = [j]
    /\ positions "Name" (cleaned companies) = [j]
    /\ In (INFO, RemovedMissingNames 1) (prepared_log companies)
    /\ len (cleaned companies) = 2
    /\ series j (cleaned companies) = [Str "Acme"; Str ""].
Proof.
  destruct (null_names_dropped_blank_names_kept pandas companies
              (fst (match validate_data companies
                            [(INFO, Banner); (INFO, LoadingCsv);
                             (INFO, LoadedCsv 3)] with
                    | (Ok df, l) => (df, l)
                    | (Raised _, l) => (companies, l)
                    end))
              (cleaned companies)
              [(INFO, Banner); (INFO, LoadingCsv); (INFO, LoadedCsv 3)]
              (snd (validate_data companies
                      [(INFO, Banner); (INFO, LoadingCsv); (INFO, LoadedCsv 3)]))
              (prepared_log companies))
    as [j [H1 [H2 [H3 [H4 [H5 _]]]]]].
  - vm_compute. reflexivity.
  - vm_compute. reflexivity.
  - exists j. split; [exact H1|]. split; [exact H2|].
    assert (Hj : j = 0).
    { assert (E : positions "name" companies = [0]) by reflexivity.
      rewrite E in H1. injection H1 as H1. symmetry. exact H1. }
    subst j. split; [|split].
    + vm_compute. in_log.
    + rewrite H4. vm_compute. reflexivity.
    + rewrite H5. vm_compute. reflexivity.
Defined.

(** ** Text lengths *)

(** C2.  The run on a table whose only company has a homepage URL of 501
    characters succeeds and writes the URL in full, although the rules
    give 500 as the limit of HomepageURL: the validator limits the length
    of the name only. *)
Theorem long_url_is_written_in_full :
  let run := main one_row_chunks pandas
               (world long_url_company (fresh 10 true) true) in
  success run = true
  /\ Config.max_length "HomepageURL" = Some 500
  /\ positions "HomepageURL" (cleaned long_url_company) = [1]
  /\ SqlTable.table (dest (final run)) = table_of (cleaned long_url_company)
  /\ map str_len (series 1 (cleaned long_url_company)) = [Some 501]
  /\ forall n, ~ In (WARNING, LongNames n Config.max_name_length) (run_log run).
Proof.
  cbv zeta. conjuncts; try (vm_compute; reflexivity).
  intros n. vm_compute. intuition discriminate.
Qed.

(** ** Dates *)

(** The founding date of the first company keeps its time of day, 14:30,
    on the way to the destination. *)
Lemma time_of_day_retained_counterexample :
  let run := main one_row_chunks pandas
               (world companies (fresh 10 true) true) in
  success run = true
  /\ positions "FoundedAt" (cleaned companies) = [6]
  /\ SqlTable.table (dest (final run)) = table_of (cleaned companies)
  /\ series 6 (cleaned companies)
     = [Ts (mkTs 2010 5 3 ((14 * 3600 + 30 * 60) * 1000000000)); NaN]
  /\ ts_time (mkTs 2010 5 3 ((14 * 3600 + 30 * 60) * 1000000000)) <> 0%Z.
Proof.
  cbv zeta. conjuncts; try (vm_compute; reflexivity).
  vm_compute. discriminate.
Defined.

Lemma date_range_clamp_keeps_timestamps_witness :
  series 6 (cleaned companies)
  = [Ts (mkTs 2010 5 3 52200000000000); NaN]
  /\ In (INFO, DatesConverted "FoundedAt" 0 1) (prepared_log companies).
Proof.
  destruct (date_range_clamp_keeps_timestamps pandas
              (fst (match validate_data companies
                            [(INFO, Banner); (INFO, LoadingCsv);
                             (INFO, LoadedCsv 3)] with
                    | (Ok df, l) => (df, l)
                    | (Raised _, l) => (companies, l)
                    end))
              (cleaned companies)
              (snd (validate_data companies
                      [(INFO, Banner); (INFO, LoadingCsv); (INFO, LoadedCsv 3)]))
              (prepared_log companies) "FoundedAt" 6)
    as [H1 [_ [_ H4]]].
  - vm_compute. reflexivity.
  - simpl. auto.
  - vm_compute. reflexivity.
  - split.
    + rewrite H1. vm_compute. reflexivity.
    + vm_compute. in_log.
Defined.

(** ** Missing columns *)

(** C8.  On a table whose header has no name column the validator raises
    KeyError and the run fails before anything is written; on a table
    whose header has no funding_total_usd column the rows are added to the
    table that is there and verified, the report raises KeyError, and the
    run fails. *)
Theorem missing_columns_fail_the_run :
  let nameless_run := main one_row_chunks pandas
                        (world without_name (fresh 10 true) true) in
  let unfunded_run := main appending pandas
                        (world without_funding populated true) in
  (success nameless_run = false
   /\ In (ERROR, RunFailed (KeyError "name")) (run_log nameless_run)
   /\ issued (final nameless_run) = []
   /\ dest (final nameless_run) = fresh 10 true)
  /\ (success unfunded_run = false
      /\ In (INFO, MigrationCompleted) (run_log unfunded_run)
      /\ In (INFO, Verified) (run_log unfunded_run)
      /\ In (ERROR, RunFailed (KeyError "FundingTotalUSD")) (run_log unfunded_run)
      /\ List.length (issued (final unfunded_run)) = 1).
Proof.
  cbv zeta. conjuncts; try (vm_compute; reflexivity); vm_compute; in_log.
Qed.

(* ===================================================================== *)
(** * Further properties of the validator and the cleaner *)
(* ===================================================================== *)

(** ** What the cleaner makes of each kind of column *)

Lemma cleaner_string_series P df l out l' c j :
  clean_and_transform_data P df l = (Ok out, l') ->
  In c string_columns ->
  positions c (rename df) = [j] ->
  series j out = map (clean_text P) (series j df).
Proof.
  intros H Hc Hp. apply cleaner_stages in H.
  destruct H as [l0 [df1 [l1 [df2 [l2 [l3 [H1 [H2 [H3 _]]]]]]]]].
  pose proof (positions_unique_label _ _ _ Hp) as Hlab.
  pose proof (for_each_frame _ (clean_date_column_frame P) _ _ _ _ _ H1)
    as [A1 [_ S1]].
  pose proof (for_each_frame _ (clean_numeric_column_frame P) _ _ _ _ _ H2)
    as [A2 [_ S2]].
  assert (Hp2 : positions c df2 = [j]).
  { rewrite (positions_labels c df1 df2) by exact A2.
    rewrite (positions_labels c (rename df) df1) by exact A1. exact Hp. }
  destruct (for_each_column (clean_string_column P)
              (map (clean_text P)) (fun _ _ _ => True)
              (fun _ _ _ _ _ => I)
              (appends_clean_string_column P)
              (clean_string_column_frame P)
              (clean_string_column_column P)
              string_columns string_columns_NoDup _ _ _ _ _ _ H3 Hc Hp2)
    as [Hs3 _].
  rewrite Hs3, S2, S1; [reflexivity| |].
  - apply untouched with (c := c); [exact Hlab|]. now apply string_not_date.
  - apply untouched with (c := c); [congruence|]. now apply string_not_numeric.
Qed.

Lemma cleaner_date_series P df l out l' c j :
  clean_and_transform_data P df l = (Ok out, l') ->
  In c date_columns ->
  positions c (rename df) = [j] ->
  series j out = map clamp_cell (map ts_cell (to_datetime P (series j df))).
Proof.
  intros H Hc Hp. apply cleaner_stages in H.
  destruct H as [l0 [df1 [l1 [df2 [l2 [l3 [H1 [H2 [H3 _]]]]]]]]].
  pose proof (positions_unique_label _ _ _ Hp) as Hlab.
  destruct (for_each_column (clean_date_column P)
              (fun s => map clamp_cell (map ts_cell (to_datetime P s)))
              (fun _ _ _ => True) (fun _ _ _ _ _ => I)
              (appends_clean_date_column P)
              (clean_date_column_frame P)
              (fun c0 df0 l0' df0' l0'' j0 Hs Hq =>
                 conj (proj1 (clean_date_column_column P c0 df0 l0' df0' l0'' j0
                                Hs Hq)) I)
              date_columns date_columns_NoDup _ _ _ _ _ _ H1 Hc Hp)
    as [Hs _].
  change (series j (rename df)) with (series j df) in Hs.
  pose proof (for_each_frame _ (clean_date_column_frame P) _ _ _ _ _ H1)
    as [A1 _].
  pose proof (for_each_frame _ (clean_numeric_column_frame P) _ _ _ _ _ H2)
    as [A2 [_ S2]].
  pose proof (for_each_frame _ (clean_string_column_frame P) _ _ _ _ _ H3)
    as [A3 [_ S3]].
  rewrite S3, S2; [exact Hs| |].
  - apply untouched with (c := c); [congruence|]. now apply date_not_numeric.
  - apply untouched with (c := c); [congruence|]. now apply date_not_string.
Qed.

(** X1.  The cleaner keeps the number of rows, renames the labels by the
    column mapping and nothing else, and leaves the data of every column
    that is not a date, numeric or text column of the schema exactly as it
    was: such a column goes on to the writer unchanged. *)
Theorem unhandled_columns_pass_through (P : Pandas) (df out : DataFrame)
    (l l' : list log_record) :
  clean_and_transform_data P df l = (Ok out, l') ->
  labels out = map rename_label (labels df)
  /\ len out = len df
  /\ (forall j c,
        nth_error (labels out) j = Some c ->
        ~ In c handled_columns ->
        series j out = series j df).
Proof.
  intros H. pose proof (cleaner_frame _ _ _ _ _ H) as [L N].
  split; [now rewrite L, labels_rename|]. split; [exact N|].
  intros j c Hj Hn. rewrite L in Hj.
  apply cleaner_stages in H.
  destruct H as [l0 [df1 [l1 [df2 [l2 [l3 [H1 [H2 [H3 _]]]]]]]]].
  pose proof (for_each_frame _ (clean_date_column_frame P) _ _ _ _ _ H1)
    as [A1 [_ S1]].
  pose proof (for_each_frame _ (clean_numeric_column_frame P) _ _ _ _ _ H2)
    as [A2 [_ S2]].
  pose proof (for_each_frame _ (clean_string_column_frame P) _ _ _ _ _ H3)
    as [A3 [_ S3]].
  unfold handled_columns in Hn.
  rewrite S3, S2, S1; [reflexivity| | |].
  - apply untouched with (c := c); [exact Hj|].
    intros Hin. apply Hn. apply in_or_app. now left.
  - apply untouched with (c := c); [congruence|].
    intros Hin. apply Hn. apply in_or_app. right. apply in_or_app. now left.
  - apply untouched with (c := c); [congruence|].
    intros Hin. apply Hn. apply in_or_app. right. apply in_or_app. now right.
Qed.

(** ** Dates *)

Lemma clamp_cell_in_bounds c : date_in_bounds (clamp_cell (ts_cell c)).
Proof.
  unfold clamp_cell, date_in_bounds. destruct c as [t|]; simpl; [|now left].
  unfold ts_ltb, ts_gtb.
  destruct (ts_compare t sql_server_min_date) eqn:E1;
    destruct (ts_compare t sql_server_max_date) eqn:E2; simpl;
    try (now left); right; exists t; rewrite E1, E2;
    repeat split; discriminate.
Qed.

(** X2.  After cleaning, every value of FoundedAt, FirstFundingAt and
    LastFundingAt is null or a timestamp from 1753-01-01 00:00 to
    9999-12-31 00:00. *)
Theorem cleaned_dates_in_bounds (P : Pandas) (df out : DataFrame)
    (l l' : list log_record) (col : string) (j : nat) :
  clean_and_transform_data P df l = (Ok out, l') ->
  In col date_columns ->
  positions col (rename df) = [j] ->
  Forall date_in_bounds (series j out).
Proof.
  intros H Hc Hp. rewrite (cleaner_date_series _ _ _ _ _ _ _ H Hc Hp).
  rewrite map_map. apply Forall_map. apply Forall_forall.
  intros c _. apply clamp_cell_in_bounds.
Qed.

Lemma sum_cons b mask : sum (b :: mask) = (if b then 1 else 0) + sum mask.
Proof. unfold sum. simpl. destruct b; simpl; reflexivity. Qed.

Lemma null_count_after_clamp cs :
  sum (map isna (map clamp_cell cs))
  = sum (map isna cs) + sum (map out_of_range cs).
Proof.
  induction cs as [|c cs IH]; [reflexivity|].
  cbn [map]. rewrite !sum_cons, IH.
  unfold clamp_cell, out_of_range.
  destruct c as [|s|q|t]; simpl; try lia.
  destruct (ts_ltb t sql_server_min_date || ts_gtb t sql_server_max_date);
    simpl; lia.
Qed.

(** X3.  The two counts the cleaner logs for a date column differ by the
    number of converted values that lie out of the range: nulls after the
    range check = nulls after conversion + values before 1753-01-01 or
    after 9999-12-31. *)
Theorem date_null_counts_add_up (P : Pandas) (df out : DataFrame)
    (l l' : list log_record) (col : string) (j : nat) :
  clean_and_transform_data P df l = (Ok out, l') ->
  In col date_columns ->
  positions col (rename df) = [j] ->
  exists before,
    before = sum (map isna (map ts_cell (to_datetime P (series j df))))
    /\ In (INFO, DatesConverted col before
                   (before + sum (map out_of_range
                                      (map ts_cell (to_datetime P (series j df))))))
          l'
    /\ sum (map isna (series j out))
       = before + sum (map out_of_range
                           (map ts_cell (to_datetime P (series j df)))).
Proof.
  intros H Hc Hp. eexists. split; [reflexivity|].
  pose proof (cleaner_date_series _ _ _ _ _ _ _ H Hc Hp) as Hs.
  split; [|now rewrite Hs, null_count_after_clamp].
  rewrite <- null_count_after_clamp.
  apply cleaner_stages in H.
  destruct H as [l0 [df1 [l1 [df2 [l2 [l3 [H1 [H2 [H3 ->]]]]]]]]].
  destruct (for_each_column (clean_date_column P)
              (fun s => map clamp_cell (map ts_cell (to_datetime P s)))
              (fun c s l =>
                 In (INFO, DatesConverted c
                       (sum (map isna (map ts_cell (to_datetime P s))))
                       (sum (map isna (map clamp_cell
                                         (map ts_cell (to_datetime P s))))))
                    l)
              (fun c s l t Hin => in_or_app l t _ (or_introl Hin))
              (appends_clean_date_column P)
              (clean_date_column_frame P)
              (clean_date_column_column P)
              date_columns date_columns_NoDup _ _ _ _ _ _ H1 Hc Hp)
    as [_ HQ].
  change (series j (rename df)) with (series j df) in HQ.
  apply in_or_app. left.
  eapply appends_In; [|exact H3|].
  { apply appends_for_each. apply appends_clean_string_column. }
  eapply appends_In; [|exact H2|].
  { apply appends_for_each. apply appends_clean_numeric_column. }
  exact HQ.
Qed.

(** ** Text *)

Lemma lstrip_no_leading s : starts_with_space (lstrip s) = false.
Proof.
  induction s as [|c s IH]; simpl; auto.
  destruct (is_space c) eqn:E; auto.
Qed.

Lemma rstrip_no_trailing s : ends_with_space (rstrip s) = false.
Proof.
  induction s as [|c s IH]; simpl; auto.
  destruct (rstrip s) as [|c' t] eqn:E.
  - destruct (is_space c) eqn:Ec; simpl; auto.
  - exact IH.
Qed.

Lemma rstrip_keeps_start s :
  starts_with_space s = false -> starts_with_space (rstrip s) = false.
Proof.
  destruct s as [|c s]; simpl; auto. intros Hc.
  destruct (rstrip s); rewrite ?Hc; simpl; auto.
Qed.

Lemma lstrip_length s : String.length (lstrip s) <= String.length s.
Proof.
  induction s as [|c s IH]; simpl; auto.
  destruct (is_space c); simpl; lia.
Qed.

Lemma rstrip_length s : String.length (rstrip s) <= String.length s.
Proof.
  induction s as [|c s IH]; simpl; auto.
  destruct (rstrip s) as [|c' t]; simpl in *.
  - destruct (is_space c); simpl; lia.
  - lia.
Qed.

Lemma strip_length s : String.length (strip s) <= String.length s.
Proof.
  unfold strip. pose proof (rstrip_length (lstrip s)).
  pose proof (lstrip_length s). lia.
Qed.

Lemma substring_prefix_bounded n s : String.length (substring 0 n s) <= n.
Proof.
  revert s. induction n as [|n IH]; intros [|c s]; simpl; auto; try lia.
  specialize (IH s). lia.
Qed.

Lemma clean_text_trimmed P c : trimmed (clean_text P c).
Proof.
  unfold clean_text, trimmed, str_strip.
  destruct (replace_nan (astype_str P c)) as [|s|q|t]; try (now left).
  right. exists (strip s). split; [reflexivity|]. unfold strip. split.
  - apply rstrip_keeps_start. apply lstrip_no_leading.
  - apply rstrip_no_trailing.
Qed.

(** X4.  After cleaning, every value of a text column of the schema (Name,
    HomepageURL, CategoryList, Status, CountryCode, StateCode, City) is
    null or a text that neither begins nor ends with whitespace. *)
Theorem cleaned_text_is_trimmed (P : Pandas) (df out : DataFrame)
    (l l' : list log_record) (col : string) (j : nat) :
  clean_and_transform_data P df l = (Ok out, l') ->
  In col string_columns ->
  positions col (rename df) = [j] ->
  Forall trimmed (series j out).
Proof.
  intros H Hc Hp. rewrite (cleaner_string_series _ _ _ _ _ _ _ H Hc Hp).
  apply Forall_map. apply Forall_forall. intros c _.
  apply clean_text_trimmed.
Qed.

(** X5.  The placeholder test comes before the trimming: a value that is
    exactly the text "nan" becomes null, while a value that is "nan" with
    whitespace around it stays in the output as the text "nan". *)
Theorem padded_placeholder_survives (P : Pandas) (df out : DataFrame)
    (l l' : list log_record) (col : string) (j i : nat) (s : string) :
  clean_and_transform_data P df l = (Ok out, l') ->
  In col string_columns ->
  positions col (rename df) = [j] ->
  nth_error (series j df) i = Some (Str s) ->
  (s = "nan" -> nth_error (series j out) i = Some NaN)
  /\ (s <> "nan" -> strip s = "nan" ->
      nth_error (series j out) i = Some (Str "nan")).
Proof.
  intros H Hc Hp Hi.
  rewrite (cleaner_string_series _ _ _ _ _ _ _ H Hc Hp), nth_error_map, Hi.
  unfold clean_text. simpl. split.
  - intros ->. reflexivity.
  - intros Hne Hs. apply String.eqb_neq in Hne. rewrite Hne. simpl.
    now rewrite Hs.
Qed.

(** ** The validator *)

Lemma validate_names_frame df l df' l' :
  validate_names df l = (Ok df', l') ->
  labels df' = labels df /\ len df' = len df
  /\ (forall j, nth_error (labels df) j <> Some "name" ->
                series j df' = series j df).
Proof.
  unfold validate_names. destruct (has_column "name" df).
  - intros H. apply bind_ok in H. destruct H as [j [l1 [Ha H]]].
    assert (Hp : positions "name" df = [j]).
    { unfold str_accessor in Ha.
      destruct (positions "name" df) as [|j0 [|j2 js]]; try discriminate.
      destruct (dtype_at j0 df); try discriminate.
      apply ret_ok in Ha. destruct Ha as [-> _]. reflexivity. }
    destruct (any _).
    + apply bind_ok in H. destruct H as [u [l2 [_ H]]].
      apply ret_ok in H. destruct H as [-> _]. repeat split.
      * apply len_assign_where.
      * intros j' Hj'. apply series_assign_where_other.
        intros <-. apply Hj'. now apply positions_unique_label.
    + apply ret_ok in H. destruct H as [-> _]. auto.
  - intros H. apply ret_ok in H. destruct H as [-> _]. auto.
Qed.





(** The stages of the validator on a successful run. *)
Lemma validator_stages df l df1 l1 :
  validate_data df l = (Ok df1, l1) ->
  exists j dfd dfn la lb,
    positions "name" df = [j]
    /\ columns dfd = columns df
    /\ rows dfd = kept_rows j df
    /\ validate_names dfd la = (Ok dfn, lb)
    /\ exists lc, validate_funding dfn lb = (Ok df1, lc).
Proof.
  unfold validate_data. intros H.
  apply bind_ok in H. destruct H as [u0 [l0 [_ H]]].
  apply bind_ok in H. destruct H as [dfd [la [Hd H]]].
  apply bind_ok in H. destruct H as [u1 [lb [Hl H]]].
  apply bind_ok in H. destruct H as [dfn [lc [Hn H]]].
  apply bind_ok in H. destruct H as [dff [ld [Hf H]]].
  apply bind_ok in H. destruct H as [u2 [le [Hl2 H]]].
  apply ret_ok in H. destruct H as [-> ->].
  apply dropna_ok in Hd. destruct Hd as [Hne [Ed ->]].
  assert (Hlab : labels dfd = labels df) by (subst dfd; reflexivity).
  assert (Hh : has_column "name" dfd = true).
  { rewrite (has_column_labels _ _ _ Hlab).
    destruct (has_column "name" df) eqn:E; auto.
    apply has_column_positions in E. contradiction. }
  destruct (validate_names_ok _ _ _ _ Hn Hh) as [j [Hp _]].
  rewrite (positions_labels _ _ _ Hlab) in Hp.
  exists j, dfd, dfn, lb, lc. split; [exact Hp|].
  split; [subst dfd; reflexivity|].
  split; [|split; [exact Hn|now exists ld]].
  subst dfd. simpl. rewrite Hp. apply dropped_rows_series.
Qed.


(** X7.  Validation keeps the header, keeps the rows whose name is not
    null in their order, and changes no column other than name and
    funding_total_usd. *)
Theorem validation_touches_name_and_funding_only (df df1 : DataFrame)
    (l l1 : list log_record) :
  validate_data df l = (Ok df1, l1) ->
  exists j,
    positions "name" df = [j]
    /\ columns df1 = columns df
    /\ len df1 = List.length (kept_rows j df)
    /\ (forall j' c,
          nth_error (labels df) j' = Some c ->
          c <> "name" -> c <> "funding_total_usd" ->
          series j' df1 = map (cell_at j') (kept_rows j df)).
Proof.
  intros H.
  destruct (validator_stages _ _ _ _ H)
    as [j [dfd [dfn [la [lb [Hj [Hcol [Hrows [Hn [lc Hf]]]]]]]]]].
  assert (Hlab : labels dfd = labels df) by (unfold labels; now rewrite Hcol).
  pose proof (validate_names_frame _ _ _ _ Hn) as [Ln [Nn Sn]].
  pose proof (validate_funding_frame _ _ _ _ Hf) as [Lf [Nf Sf]].
  exists j. split; [exact Hj|]. split; [|split].
  - assert (Cn : columns dfn = columns dfd).
    { unfold validate_names in Hn. destruct (has_column "name" dfd).
      - apply bind_ok in Hn. destruct Hn as [j0 [l2 [_ Hn]]].
        destruct (any _).
        + apply bind_ok in Hn. destruct Hn as [u [l3 [_ Hn]]].
          apply ret_ok in Hn. destruct Hn as [-> _]. reflexivity.
        + apply ret_ok in Hn. destruct Hn as [-> _]. reflexivity.
      - apply ret_ok in Hn. destruct Hn as [-> _]. reflexivity. }
    assert (Cf : columns df1 = columns dfn).
    { unfold validate_funding in Hf.
      destruct (has_column "funding_total_usd" dfn).
      - destruct (positions "funding_total_usd" dfn) as [|j0 [|j2 js]];
          try discriminate.
        apply bind_ok in Hf. destruct Hf as [m [l2 [_ Hf]]].
        destruct (any m).
        + apply bind_ok in Hf. destruct Hf as [u [l3 [_ Hf]]].
          apply ret_ok in Hf. destruct Hf as [-> _]. reflexivity.
        + apply ret_ok in Hf. destruct Hf as [-> _]. reflexivity.
      - apply ret_ok in Hf. destruct Hf as [-> _]. reflexivity. }
    congruence.
  - rewrite Nf, Nn. unfold len. now rewrite Hrows.
  - intros j' c Hc Hn1 Hn2.
    rewrite Sf, Sn.
    + unfold series. now rewrite Hrows.
    + rewrite Hlab, Hc. congruence.
    + rewrite Ln, Hlab, Hc. congruence.
Qed.

(** ** Names through validation and cleaning *)

Lemma pipeline_name_series P df l df1 l1 out l2 :
  validate_data df l = (Ok df1, l1) ->
  clean_and_transform_data P df1 l1 = (Ok out, l2) ->
  exists j,
    positions "name" df = [j]
    /\ positions "Name" out = [j]
    /\ series j out
       = map (fun r => clean_text P (truncate_name (cell_at j r)))
             (kept_rows j df).
Proof.
  intros Hv Hc.
  destruct (validate_data_kept _ _ _ _ Hv) as [j [Hp [Hl [_ [Hs _]]]]].
  exists j. split; [exact Hp|].
  pose proof (cleaner_frame _ _ _ _ _ Hc) as [Lout _].
  assert (Hname : nth_error (labels (rename df1)) j = Some "Name").
  { rewrite labels_rename, nth_error_map, Hl.
    now rewrite (positions_unique_label _ _ _ Hp). }
  assert (Hin_s : In "Name" string_columns) by (simpl; auto).
  assert (Hu : positions "Name" (rename df1) = [j]).
  { pose proof Hc as Hc'. apply cleaner_stages in Hc'.
    destruct Hc' as [l0 [dfa [la [dfb [lb [lc [H1 [H2 [H3 _]]]]]]]]].
    pose proof (for_each_frame _ (clean_date_column_frame P) _ _ _ _ _ H1)
      as [A1 _].
    pose proof (for_each_frame _ (clean_numeric_column_frame P) _ _ _ _ _ H2)
      as [A2 _].
    assert (Hb : nth_error (labels dfb) j = Some "Name") by congruence.
    destruct (for_each_unique _ (clean_string_column_frame P)
                (clean_string_column_unique P) _ _ _ _ _ "Name" H3 Hin_s
                (label_has_column _ _ _ Hb)) as [j' Hj'].
    apply positions_label in Hb. rewrite Hj' in Hb.
    destruct Hb as [->|[]].
    rewrite <- (positions_labels "Name" (rename df1) dfb) by congruence.
    exact Hj'. }
  split.
  - rewrite (positions_labels "Name" (rename df1) out) by exact Lout.
    exact Hu.
  - rewrite (cleaner_string_series _ _ _ _ _ _ _ Hc Hin_s Hu), Hs, map_map.
    reflexivity.
Qed.

Lemma clean_name_in_limit P s :
  name_in_limit (clean_text P (truncate_name (Str s))).
Proof.
  unfold truncate_name, longer_than, clean_text. simpl str_len. cbv iota.
  destruct (Config.max_name_length <? String.length s) eqn:E; simpl.
  - destruct (String.eqb _ "nan"); [now left|].
    right. eexists. split; [reflexivity|].
    pose proof (strip_length (substring 0 Config.max_name_length s)).
    pose proof (substring_prefix_bounded Config.max_name_length s). lia.
  - apply Nat.ltb_ge in E.
    destruct (String.eqb s "nan"); [now left|].
    right. eexists. split; [reflexivity|].
    pose proof (strip_length s). lia.
Qed.

(** X8.  The name of every record that reaches the writer from a text in
    the loaded table is null or a text of at most 255 characters; the
    names come in the order of the loaded rows that have one. *)
Theorem written_names_within_limit (P : Pandas) (df df1 out : DataFrame)
    (l l1 l2 : list log_record) :
  validate_data df l = (Ok df1, l1) ->
  clean_and_transform_data P df1 l1 = (Ok out, l2) ->
  exists j,
    positions "name" df = [j]
    /\ positions "Name" out = [j]
    /\ List.length (series j out) = List.length (kept_rows j df)
    /\ (forall i r s,
          nth_error (kept_rows j df) i = Some r ->
          cell_at j r = Str s ->
          exists c, nth_error (series j out) i = Some c /\ name_in_limit c).
Proof.
  intros Hv Hc.
  destruct (pipeline_name_series _ _ _ _ _ _ _ Hv Hc) as [j [Hp [Hq Hs]]].
  exists j. split; [exact Hp|]. split; [exact Hq|]. split.
  - now rewrite Hs, length_map.
  - intros i r s Hi Hr. rewrite Hs, nth_error_map, Hi. simpl.
    eexists. split; [reflexivity|]. rewrite Hr. apply clean_name_in_limit.
Qed.

(** X9.  A name column that is not a text column (a column read from
    empty fields only is a float column) makes the validator raise
    AttributeError, whatever the rows: the run does not go on with no
    rows. *)
Theorem non_text_name_column_raises (df : DataFrame) (l : list log_record)
    (j : nat) :
  positions "name" df = [j] ->
  dtype_at j df <> object_ ->
  exists l', validate_data df l = (Raised AttributeError, l').
Proof.
  intros Hp Hd. unfold validate_data, bind, logger, dropna. simpl.
  rewrite Hp. simpl. unfold validate_names.
  set (dfd := {| columns := columns df; rows := _ |}).
  assert (Hh : has_column "name" dfd = true).
  { apply (has_column_unique "name" dfd j). exact Hp. }
  rewrite Hh. unfold bind, str_accessor.
  change (positions "name" dfd) with (positions "name" df). rewrite Hp.
  change (dtype_at j dfd) with (dtype_at j df).
  destruct (dtype_at j df); [contradiction| |]; eexists; reflexivity.
Qed.

(* ===================================================================== *)
(** * Further properties of the writer, the reporter and the driver *)
(* ===================================================================== *)

Lemma positions_nonempty col df :
  has_column col df = true -> positions col df <> [].
Proof.
  unfold has_column, positions. generalize 0 as j0.
  induction (labels df) as [|l0 ls IH]; intros j0 H; simpl in *;
    [discriminate|].
  destruct (String.eqb col l0); [discriminate|]. now apply IH.
Qed.

Lemma getitem_result col df l :
  getitem col df l
  = if has_column col df then (Ok tt, l) else (Raised (KeyError col), l).
Proof.
  unfold getitem. destruct (has_column col df) eqn:E.
  - apply positions_nonempty in E.
    destruct (positions col df); [contradiction|reflexivity].
  - now rewrite (has_column_positions _ _ E).
Qed.

(** X10.  The report is produced only when the frame has the columns
    Name, FundingTotalUSD, CountryCode and CategoryList and the report
    file can be written; when one of the columns is missing the report
    raises KeyError for a missing column before the file is opened, so
    the outcome does not depend on the file. *)
Theorem report_needs_its_columns (df : DataFrame) (l : list log_record)
    (writable : bool) :
  (fst (generate_summary_report writable df l) = Ok tt ->
   has_column "Name" df && has_column "FundingTotalUSD" df
   && has_column "CountryCode" df && has_column "CategoryList" df
   && writable = true)
  /\ (has_column "Name" df && has_column "FundingTotalUSD" df
      && has_column "CountryCode" df && has_column "CategoryList" df = false ->
      generate_summary_report writable df l
      = generate_summary_report (negb writable) df l
      /\ exists col,
           has_column col df = false
           /\ fst (generate_summary_report writable df l)
              = Raised (KeyError col)).
Proof.
  unfold generate_summary_report, bind, logger.
  rewrite getitem_result.
  destruct (has_column "Name" df) eqn:E1; cbv beta iota zeta;
    [rewrite getitem_result;
     destruct (has_column "FundingTotalUSD" df) eqn:E2; cbv beta iota zeta;
     [rewrite getitem_result;
      destruct (has_column "CountryCode" df) eqn:E3; cbv beta iota zeta;
      [rewrite getitem_result;
       destruct (has_column "CategoryList" df) eqn:E4; cbv beta iota zeta;
       [destruct writable|]|]|]|];
    simpl;
    (split;
     [ first [intros X; discriminate X | auto]
     | first [ intros X; discriminate X
             | intros _; split;
               [reflexivity|eexists; split; [eassumption|reflexivity]] ] ]).
Qed.

Lemma report_saved df l writable u l' :
  generate_summary_report writable df l = (Ok u, l') ->
  writable = true /\ In (INFO, ReportSaved) l'.
Proof.
  unfold generate_summary_report, bind, logger.
  rewrite getitem_result.
  destruct (has_column "Name" df); cbv beta iota zeta; [|discriminate].
  rewrite getitem_result.
  destruct (has_column "FundingTotalUSD" df); cbv beta iota zeta;
    [|discriminate].
  rewrite getitem_result.
  destruct (has_column "CountryCode" df); cbv beta iota zeta; [|discriminate].
  rewrite getitem_result.
  destruct (has_column "CategoryList" df); cbv beta iota zeta; [|discriminate].
  destruct writable; [|discriminate].
  intros H. inversion H. split; [reflexivity|].
  apply in_or_app. right. now left.
Qed.

Section DriverProperties.

Context {D : Destination}.
Variable cfg : Config.migration_config.

(** X11.  With a chunk size of zero the writer raises on computing the
    number of chunks: it reports failure for every frame, also an empty
    one, and issues no call. *)
Theorem zero_chunksize_fails_without_writing (df : DataFrame) (db : DB D)
    (l : list log_record) :
  Config.chunksize cfg = 0 ->
  migrate_data_to_sql cfg df db l
  = (false, mkWriter db [],
     l ++ [(INFO, MigrationStarted (len df))]
       ++ [(ERROR, MigrationFailed ZeroDivisionError)]).
Proof.
  intros H. unfold migrate_data_to_sql, floordiv. rewrite H. simpl.
  now rewrite <- app_assoc.
Qed.

Lemma combine_with_map {A B} (f : A -> B) (xs : list A) :
  combine xs (map f xs) = map (fun x => (x, f x)) xs.
Proof. induction xs as [|x xs IH]; simpl; [reflexivity|now rewrite IH]. Qed.

Lemma range_from_multiples b fuel start stop :
  range_from fuel start stop b
  = map (fun k => start + k * b)
        (seq 0 (List.length (range_from fuel start stop b))).
Proof.
  revert start. induction fuel as [|fuel IH]; intros start; simpl; auto.
  destruct (start <? stop); simpl; auto.
  f_equal; [lia|].
  rewrite <- seq_shift, map_map. rewrite IH at 1.
  apply map_ext. intros k. lia.
Qed.

Lemma write_chunks_progress df total starts :
  forall i (st : writer_state D) l u st' l',
    write_chunks cfg df total i starts st l = (Ok u, st', l') ->
    l' = l ++ map (fun ks =>
                     (INFO, MigratedChunk (fst ks + 1) total
                              (Nat.min (snd ks + Config.chunksize cfg) (len df))
                              (len df)))
                  (combine (seq i (List.length starts)) starts).
Proof.
  induction starts as [|s rest IH]; intros i st l u st' l' H; simpl in *.
  - inversion H. now rewrite app_nil_r.
  - destruct (to_sql D _ _ (dest st)) as [db'|e db']; [|discriminate].
    apply IH in H. rewrite H, <- app_assoc. reflexivity.
Qed.

(** X12.  A migration that succeeds logs the start, then one progress line
    per chunk and nothing else, then the completion: there are
    ceil(N/B) lines, and the line of chunk k (from 1) reads
    k of ceil(N/B) chunks and min(k*B, N) of N records, so the last line
    reports all N records. *)
Theorem progress_is_logged_per_chunk (df : DataFrame) (db : DB D)
    (l l' : list log_record) (st : writer_state D) :
  migrate_data_to_sql cfg df db l = (true, st, l') ->
  l' = l ++ [(INFO, MigrationStarted (len df))]
         ++ map (progress_line (Config.chunksize cfg) (len df))
                (seq 0 ((len df + Config.chunksize cfg - 1)
                        / Config.chunksize cfg))
         ++ [(INFO, MigrationCompleted)].
Proof.
  intros H.
  assert (HB : 0 < Config.chunksize cfg).
  { destruct (Nat.eq_dec (Config.chunksize cfg) 0) as [E0|]; [|lia].
    rewrite (zero_chunksize_fails_without_writing df db l E0) in H.
    discriminate. }
  rewrite migrate_unfold in H by exact HB.
  destruct (write_chunks _ _ _ _ _ _ _) as [[[u|e] st1] l1] eqn:E;
    inversion H; subst.
  apply write_chunks_progress in E. rewrite E.
  rewrite (range_from_length _ HB) by lia. rewrite Nat.sub_0_r.
  rewrite range_from_multiples at 1.
  rewrite (range_from_length _ HB) by lia. rewrite Nat.sub_0_r.
  rewrite combine_with_map, map_map, <- !app_assoc. simpl.
  reflexivity.
Qed.

(** X13.  When the run ends in one of its first four steps (the file is
    missing, a database check fails, the load raises, or validation or
    cleaning raise), [main] returns False, no call is issued and the
    destination is as it was. *)
Theorem early_failure_leaves_destination_untouched (P : Pandas)
    (w : World) (run : Run) :
  prepare (D:=D) P w = inl run ->
  main cfg P w = run
  /\ success run = false
  /\ final run = mkWriter (database w) [].
Proof.
  intros H. unfold main. rewrite H. split; [reflexivity|].
  unfold prepare in H.
  destruct (csv_exists w); simpl in H; [|inversion H; auto].
  destruct (connection_ok w); simpl in H; [|inversion H; auto].
  destruct (database_ok w); simpl in H; [|inversion H; auto].
  destruct (read_csv w) as [df|e]; [|inversion H; auto].
  destruct (bind _ _ _) as [[df'|e] l']; inversion H; auto.
Qed.

(** X14.  A table without a name column fails the run at validation, with
    KeyError('name'), before anything is written, whatever else the table
    holds. *)
Theorem missing_name_column_fails_before_writing (P : Pandas) (w : World)
    (df : DataFrame) :
  csv_exists w = true ->
  connection_ok w = true ->
  database_ok w = true ->
  read_csv w = Ok df ->
  has_column "name" df = false ->
  success (main cfg P w) = false
  /\ final (main cfg P w) = mkWriter (D:=D) (database w) []
  /\ In (ERROR, RunFailed (KeyError "name")) (run_log (main cfg P w)).
Proof.
  intros H1 H2 H3 H4 H5. unfold main, prepare.
  rewrite H1, H2, H3, H4. simpl.
  unfold validate_data, bind, logger, dropna.
  rewrite (has_column_positions _ _ H5). simpl.
  repeat split. tauto.
Qed.

(** X15.  [main] returns True only when every step went through: the
    checks passed, validation and cleaning gave a frame, every batch of
    that frame was written and is what the destination holds, the
    verification queries ran on it, and the report was saved. *)
Theorem success_means_every_step (P : Pandas) (w : World) :
  success (main cfg P w) = true ->
  csv_exists w = true /\ connection_ok w = true /\ database_ok w = true
  /\ exists df l,
       prepare (D:=D) P w = inr (df, l)
       /\ batches cfg df = Ok (map snd (issued (final (main cfg P w))))
       /\ commit (issued (final (main cfg P w))) (database w)
          = Some (dest (final (main cfg P w)))
       /\ queries_run D (dest (final (main cfg P w))) = true
       /\ report_writable w = true
       /\ In (INFO, ReportSaved) (run_log (main cfg P w)).
Proof.
  intros H.
  destruct (prepare (D:=D) P w) as [run|[df l]] eqn:Ep.
  { destruct (early_failure_leaves_destination_untouched P w run Ep)
      as [Em [Es _]]. rewrite Em, Es in H. discriminate. }
  assert (Hchecks : csv_exists w = true /\ connection_ok w = true
                    /\ database_ok w = true).
  { unfold prepare in Ep.
    destruct (csv_exists w); [|discriminate].
    destruct (connection_ok w); [|discriminate].
    destruct (database_ok w); [|discriminate]. auto. }
  destruct Hchecks as [C1 [C2 C3]]. repeat (split; [assumption|]).
  exists df, l. split; [reflexivity|].
  unfold main in *. rewrite Ep in *. unfold finish in *.
  destruct (migrate_data_to_sql cfg df (database w) l) as [[ok st] l1] eqn:Em.
  destruct ok; [|discriminate].
  assert (HB : 0 < Config.chunksize cfg).
  { destruct (Nat.eq_dec (Config.chunksize cfg) 0) as [E0|]; [|lia].
    rewrite (zero_chunksize_fails_without_writing df (database w) l E0) in Em.
    discriminate. }
  destruct (migrate_success_issued cfg df (database w) l st l1 HB Em)
    as [Hi Hc].
  unfold verify_migration in *.
  destruct (queries_run D (dest st)) eqn:Eq; [|discriminate].
  destruct (generate_summary_report (report_writable w) df _)
    as [[u|e] l2] eqn:Eg; [|discriminate].
  apply report_saved in Eg. destruct Eg as [Hw Hin].
  simpl. split; [|split; [exact Hc|split; [exact Eq|split; [exact Hw|]]]].
  - rewrite Hi, calls_from_chunks. now apply batches_unfold.
  - apply in_or_app. now left.
Qed.

End DriverProperties.

(* ===================================================================== *)
(** * The further properties on example runs *)
(* ===================================================================== *)

Import MoreExamples.

Lemma unhandled_columns_pass_through_witness :
  series 7 (cleaned with_region) = [Str " EMEA "; Str "APAC"].
Proof.
  destruct (unhandled_columns_pass_through pandas (validated with_region)
              (cleaned with_region) (validated_log with_region)
              (cleaned_log with_region))
    as [_ [_ H]].
  - vm_compute. reflexivity.
  - rewrite (H 7 "region").
    + vm_compute. reflexivity.
    + vm_compute. reflexivity.
    + unfold handled_columns. simpl. intuition discriminate.
Defined.

Lemma cleaned_dates_in_bounds_witness :
  Forall date_in_bounds (series 6 (cleaned with_region)).
Proof.
  apply (cleaned_dates_in_bounds pandas (validated with_region)
           (cleaned with_region) (validated_log with_region)
           (cleaned_log with_region) "FoundedAt" 6).
  - vm_compute. reflexivity.
  - simpl. auto.
  - vm_compute. reflexivity.
Defined.

Lemma date_null_counts_add_up_witness :
  sum (map isna (series 6 (cleaned companies))) = 1.
Proof.
  destruct (date_null_counts_add_up pandas (validated companies)
              (cleaned companies) (validated_log companies)
              (cleaned_log companies) "FoundedAt" 6)
    as [before [Hb [_ Hs]]].
  - vm_compute. reflexivity.
  - simpl. auto.
  - vm_compute. reflexivity.
  - rewrite Hs, Hb. vm_compute. reflexivity.
Defined.

Lemma cleaned_text_is_trimmed_witness :
  Forall trimmed (series 5 (cleaned with_region)).
Proof.
  apply (cleaned_text_is_trimmed pandas (validated with_region)
           (cleaned with_region) (validated_log with_region)
           (cleaned_log with_region) "CountryCode" 5).
  - vm_compute. reflexivity.
  - simpl. auto 10.
  - vm_compute. reflexivity.
Defined.

Lemma padded_placeholder_survives_witness :
  nth_error (series 5 (cleaned with_region)) 1 = Some (Str "nan").
Proof.
  destruct (padded_placeholder_survives pandas (validated with_region)
              (cleaned with_region) (validated_log with_region)
              (cleaned_log with_region) "CountryCode" 5 1 " nan ")
    as [_ H].
  - vm_compute. reflexivity.
  - simpl. auto 10.
  - vm_compute. reflexivity.
  - vm_compute. reflexivity.
  - apply H.
    + discriminate.
    + vm_compute. reflexivity.
Defined.


Lemma validation_touches_name_and_funding_only_witness :
  exists j,
    positions "name" with_region = [j]
    /\ columns (validated with_region) = columns with_region.
Proof.
  destruct (validation_touches_name_and_funding_only with_region
              (validated with_region) [] (validated_log with_region))
    as [j [H1 [H2 _]]].
  - vm_compute. reflexivity.
  - exists j. split; [exact H1|exact H2].
Defined.

Lemma written_names_within_limit_witness :
  exists j,
    positions "name" with_region = [j]
    /\ positions "Name" (cleaned with_region) = [j].
Proof.
  destruct (written_names_within_limit pandas with_region
              (validated with_region) (cleaned with_region) []
              (validated_log with_region) (cleaned_log with_region))
    as [j [H1 [H2 _]]].
  - vm_compute. reflexivity.
  - vm_compute. reflexivity.
  - exists j. split; [exact H1|exact H2].
Defined.

Lemma non_text_name_column_raises_witness :
  exists l', validate_data unnamed [] = (Raised AttributeError, l').
Proof.
  apply (non_text_name_column_raises unnamed [] 0).
  - vm_compute. reflexivity.
  - vm_compute. discriminate.
Defined.

Lemma zero_chunksize_fails_without_writing_witness :
  Config.chunksize zero_chunks = 0
  /\ migrate_data_to_sql (D:=SqlTable.destination) zero_chunks
       (cleaned companies) populated []
     = (false, mkWriter (D:=SqlTable.destination) populated [],
        [] ++ [(INFO, MigrationStarted (len (cleaned companies)))]
           ++ [(ERROR, MigrationFailed ZeroDivisionError)]).
Proof.
  split; [reflexivity|].
  apply (zero_chunksize_fails_without_writing (D:=SqlTable.destination)
           zero_chunks (cleaned companies) populated []).
  reflexivity.
Defined.

Lemma progress_is_logged_per_chunk_witness :
  snd (written one_row_chunks three_companies (fresh 10 true))
  = prepared_log three_companies
      ++ [(INFO, MigrationStarted (len (cleaned three_companies)))]
      ++ map (progress_line (Config.chunksize one_row_chunks)
                (len (cleaned three_companies)))
             (seq 0 ((len (cleaned three_companies)
                      + Config.chunksize one_row_chunks - 1)
                     / Config.chunksize one_row_chunks))
      ++ [(INFO, MigrationCompleted)].
Proof.
  apply (progress_is_logged_per_chunk (D:=SqlTable.destination)
           one_row_chunks (cleaned three_companies) (fresh 10 true)
           (prepared_log three_companies)
           (snd (written one_row_chunks three_companies (fresh 10 true)))
           (snd (fst (written one_row_chunks three_companies (fresh 10 true))))).
  vm_compute. reflexivity.
Defined.

Lemma early_failure_leaves_destination_untouched_witness :
  main one_row_chunks pandas missing_file = not_found
  /\ success not_found = false
  /\ final not_found = mkWriter (database missing_file) [].
Proof.
  apply (early_failure_leaves_destination_untouched (D:=SqlTable.destination)
           one_row_chunks pandas missing_file not_found).
  vm_compute. reflexivity.
Defined.

Lemma missing_name_column_fails_before_writing_witness :
  success (main one_row_chunks pandas (world without_name populated true))
  = false
  /\ final (main one_row_chunks pandas (world without_name populated true))
     = mkWriter (D:=SqlTable.destination)
         (database (world without_name populated true)) []
  /\ In (ERROR, RunFailed (KeyError "name"))
        (run_log (main one_row_chunks pandas
                    (world without_name populated true))).
Proof.
  apply (missing_name_column_fails_before_writing (D:=SqlTable.destination)
           one_row_chunks pandas (world without_name populated true)
           without_name); vm_compute; reflexivity.
Defined.

Lemma success_means_every_step_witness :
  report_writable (world companies (fresh 10 true) true) = true
  /\ queries_run SqlTable.destination
       (dest (final (main one_row_chunks pandas
                       (world companies (fresh 10 true) true)))) = true.
Proof.
  destruct (success_means_every_step (D:=SqlTable.destination)
              one_row_chunks pandas (world companies (fresh 10 true) true))
    as [_ [_ [_ [df [l [_ [_ [_ [Hq [Hw _]]]]]]]]]].
  - vm_compute. reflexivity.
  - split; [exact Hw|exact Hq].
Defined.
